(** * messageparser.py: ingestion and aggregation of chat exports

    A shallow embedding of [src/messageparser.py].  Python [str] values are
    lists of code points (surrogates included, as CPython stores them),
    [bytes] values are lists of octets, dictionaries used as tables are
    [gmap]s, and every exception the code can raise is a constructor of
    [exn] carried by the [result] monad.  The embedding starts after
    [json.load]: an export file is its parsed [json] value. *)

From Stdlib Require Import ZArith List String Ascii Bool Lia Sorted.
From stdpp Require Import base option list gmap sorting.

Local Open Scope Z_scope.

(** ** Exceptions and results *)

Inductive exn : Set :=
| KeyError | IndexError | TypeError | AttributeError | ValueError
| OverflowError | UnboundLocalError | UnicodeEncodeError | UnicodeDecodeError.

Inductive result (A : Type) : Type :=
| Ok (a : A)
| Raise (e : exn).
Arguments Ok {A} a.
Arguments Raise {A} e.

Definition rbind {A B} (r : result A) (k : A -> result B) : result B :=
  match r with
  | Ok a => k a
  | Raise e => Raise e
  end.

Notation "'let*' x := r 'in' k" := (rbind r (fun x => k))
  (at level 10, x name, r at level 100, k at level 200).
Notation "'let*' ' p := r 'in' k" := (rbind r (fun x => match x with p => k end))
  (at level 10, p pattern, r at level 100, k at level 200).

Definition is_ok {A} (r : result A) : bool :=
  match r with Ok _ => true | Raise _ => false end.

(** ** Strings *)

(** A Python [str]: the list of its code points. *)
Abbreviation str := (list Z) (only parsing).

(** An ASCII literal as a Python [str]. *)
Fixpoint lit (s : string) : str :=
  match s with
  | EmptyString => []
  | String a s' => Z.of_N (N_of_ascii a) :: lit s'
  end.

Definition str_eqb (a b : str) : bool := bool_decide (a = b).

(** [str.isspace] on one character: the code points CPython's
    [_PyUnicode_IsWhitespace] accepts. *)
Definition isspace (c : Z) : bool :=
  ((9 <=? c) && (c <=? 13)) || ((28 <=? c) && (c <=? 32))
  || (c =? 133) || (c =? 160) || (c =? 5760)
  || ((8192 <=? c) && (c <=? 8202))
  || (c =? 8232) || (c =? 8233) || (c =? 8239) || (c =? 8287) || (c =? 12288).

(** [s.split()]: maximal runs of non-whitespace characters. *)
Fixpoint split_ws (s : str) : list str :=
  match s with
  | [] => []
  | c :: s' =>
      if isspace c then split_ws s'
      else match s' with
           | [] => [[c]]
           | c' :: _ =>
               if isspace c' then [c] :: split_ws s'
               else match split_ws s' with
                    | w :: ws => (c :: w) :: ws
                    | [] => [[c]]
                    end
           end
  end.

(** [s.split(sep)] for a one-character separator: never empty. *)
Fixpoint split_on (sep : Z) (s : str) : list str :=
  match s with
  | [] => [[]]
  | c :: s' =>
      if c =? sep then [] :: split_on sep s'
      else match split_on sep s' with
           | w :: ws => (c :: w) :: ws
           | [] => [[c]]
           end
  end.

(** [sep.join(parts)]. *)
Fixpoint join (sep : str) (parts : list str) : str :=
  match parts with
  | [] => []
  | [w] => w
  | w :: ws => w ++ sep ++ join sep ws
  end.

(** [needle in haystack] on two strings. *)
Fixpoint is_prefix (p s : str) : bool :=
  match p, s with
  | [], _ => true
  | _ :: _, [] => false
  | a :: p', b :: s' => (a =? b) && is_prefix p' s'
  end.

Fixpoint is_substring (p s : str) : bool :=
  is_prefix p s ||
  match s with
  | [] => false
  | _ :: s' => is_substring p s'
  end.

(** [xs[i]] for a Python index, negative ones counting from the end. *)
Definition py_index {A} (xs : list A) (i : Z) : result A :=
  let n := Z.of_nat (length xs) in
  let j := if i <? 0 then i + n else i in
  if (j <? 0) || (n <=? j) then Raise IndexError
  else match xs !! Z.to_nat j with
       | Some x => Ok x
       | None => Raise IndexError
       end.

(** ** Text repair (the two re-encode / decode round trips) *)

(** [s.encode("latin1")]: one octet per code point below 256. *)
Fixpoint encode_latin1 (s : str) : result (list Z) :=
  match s with
  | [] => Ok []
  | c :: s' =>
      if (0 <=? c) && (c <=? 255)
      then let* bs := encode_latin1 s' in Ok (c :: bs)
      else Raise UnicodeEncodeError
  end.

Definition is_cont (b : Z) : bool := (128 <=? b) && (b <=? 191).

(** [bs.decode("utf8")], strict: shortest forms only, no surrogates,
    nothing above U+10FFFF. *)
Fixpoint decode_utf8 (bs : list Z) : result str :=
  match bs with
  | [] => Ok []
  | b0 :: r0 =>
      if b0 <? 128 then let* s := decode_utf8 r0 in Ok (b0 :: s)
      else if (194 <=? b0) && (b0 <=? 223) then
        match r0 with
        | b1 :: r1 =>
            if is_cont b1
            then let* s := decode_utf8 r1 in
                 Ok (((b0 - 192) * 64 + (b1 - 128)) :: s)
            else Raise UnicodeDecodeError
        | _ => Raise UnicodeDecodeError
        end
      else if (224 <=? b0) && (b0 <=? 239) then
        match r0 with
        | b1 :: b2 :: r2 =>
            let lo := if b0 =? 224 then 160 else 128 in
            let hi := if b0 =? 237 then 159 else 191 in
            if (lo <=? b1) && (b1 <=? hi) && is_cont b2
            then let* s := decode_utf8 r2 in
                 Ok (((b0 - 224) * 4096 + (b1 - 128) * 64 + (b2 - 128)) :: s)
            else Raise UnicodeDecodeError
        | _ => Raise UnicodeDecodeError
        end
      else if (240 <=? b0) && (b0 <=? 244) then
        match r0 with
        | b1 :: b2 :: b3 :: r3 =>
            let lo := if b0 =? 240 then 144 else 128 in
            let hi := if b0 =? 244 then 143 else 191 in
            if (lo <=? b1) && (b1 <=? hi) && is_cont b2 && is_cont b3
            then let* s := decode_utf8 r3 in
                 Ok (((b0 - 240) * 262144 + (b1 - 128) * 4096
                      + (b2 - 128) * 64 + (b3 - 128)) :: s)
            else Raise UnicodeDecodeError
        | _ => Raise UnicodeDecodeError
        end
      else Raise UnicodeDecodeError
  end.

(** [s.encode("latin1").decode("utf8")] *)
Definition repair_latin1 (s : str) : result str :=
  let* bs := encode_latin1 s in decode_utf8 bs.

Definition is_high_surrogate (c : Z) : bool := (55296 <=? c) && (c <=? 56319).
Definition is_low_surrogate (c : Z) : bool := (56320 <=? c) && (c <=? 57343).

(** [s.encode("utf-16", "surrogatepass")] as 16-bit code units, the byte
    order mark first; a surrogate code point passes through as one unit. *)
Fixpoint utf16_units (s : str) : list Z :=
  match s with
  | [] => []
  | c :: s' =>
      if c <? 65536 then c :: utf16_units s'
      else (55296 + (c - 65536) / 1024) :: (56320 + (c - 65536) mod 1024)
           :: utf16_units s'
  end.

Definition encode_utf16_surrogatepass (s : str) : list Z := 65279 :: utf16_units s.

(** Strict UTF-16 decoding of code units: a high surrogate followed by a low
    one is one code point, any other surrogate is an error. *)
Fixpoint decode_utf16_units (us : list Z) : result str :=
  match us with
  | [] => Ok []
  | u :: r =>
      if is_high_surrogate u then
        match r with
        | v :: r' =>
            if is_low_surrogate v
            then let* s := decode_utf16_units r' in
                 Ok ((65536 + (u - 55296) * 1024 + (v - 56320)) :: s)
            else Raise UnicodeDecodeError
        | [] => Raise UnicodeDecodeError
        end
      else if is_low_surrogate u then Raise UnicodeDecodeError
      else let* s := decode_utf16_units r in Ok (u :: s)
  end.

(** [bs.decode("utf-16")]: the leading byte order mark is consumed. *)
Definition decode_utf16 (us : list Z) : result str :=
  match us with
  | 65279 :: r => decode_utf16_units r
  | _ => decode_utf16_units us
  end.

(** [s.encode("utf-16", 'surrogatepass').decode("utf-16")] *)
Definition repair_utf16 (s : str) : result str :=
  decode_utf16 (encode_utf16_surrogatepass s).

(** ** Emoticon rewrite *)

Definition convertable_emojis : list (str * str) :=
  [ (lit ":)", [128578]); (lit ":D", [128512]); (lit "^_^", [128522]);
    (lit "O:)", [128519]); (lit ":*", [128535]); (lit ":P", [128539]);
    (lit "8)", [128526]); (lit "(y)", [128077]);
    (lit ":(", [128542]); (lit ":/", [128533]); (lit ":'(", [128546]);
    (lit "o.O", [128563]); (lit "O.o", [128563]); (lit "-_-", [128529]);
    (lit ":|", [128528]); (lit "<3", [10084; 65039]) ].

(** [d.get(k, default)] on a table written as its items. *)
Fixpoint dict_get {V} (d : list (str * V)) (k : str) (default : V) : V :=
  match d with
  | [] => default
  | (k', v) :: d' => if str_eqb k' k then v else dict_get d' k default
  end.

Definition convert_symbols_to_emojis (message : str) : str :=
  join (lit " ") (map (fun i => dict_get convertable_emojis i i) (split_ws message)).


(** ** Parsed JSON and the dynamic operations the code applies to it *)

(** What [json.load] returns, numbers restricted to integers (the exports
    carry none with a fraction); an object is the list of its items. *)
#[local] Set Warnings "-register-all".
Inductive json : Type :=
| JNull
| JBool (b : bool)
| JInt (n : Z)
| JStr (s : str)
| JList (l : list json)
| JDict (d : list (str * json)).

Fixpoint dict_lookup (d : list (str * json)) (k : str) : option json :=
  match d with
  | [] => None
  | (k', v) :: d' => if str_eqb k' k then Some v else dict_lookup d' k
  end.

Definition is_str_eq (k : str) (v : json) : bool :=
  match v with
  | JStr s => str_eqb s k
  | _ => false
  end.

(** [k in v] for a string [k]: key membership on a dict, element membership
    on a list, substring test on a str, [TypeError] on the rest. *)
Definition py_contains (k : str) (v : json) : result bool :=
  match v with
  | JDict d => Ok (bool_decide (is_Some (dict_lookup d k)))
  | JList l => Ok (existsb (is_str_eq k) l)
  | JStr s => Ok (is_substring k s)
  | _ => Raise TypeError
  end.

(** [v[k]] for a string [k]. *)
Definition py_getitem (v : json) (k : str) : result json :=
  match v with
  | JDict d =>
      match dict_lookup d k with
      | Some x => Ok x
      | None => Raise KeyError
      end
  | _ => Raise TypeError
  end.

(** The items [for x in v] visits. *)
Definition py_iter (v : json) : result (list json) :=
  match v with
  | JList l => Ok l
  | JDict d => Ok (map (fun kv => JStr (fst kv)) d)
  | JStr s => Ok (map (fun c => JStr [c]) s)
  | _ => Raise TypeError
  end.

(** Truth value of [v] in an [if]. *)
Definition truthy (v : json) : bool :=
  match v with
  | JNull => false
  | JBool b => b
  | JInt n => negb (n =? 0)
  | JStr s => negb (bool_decide (s = []))
  | JList l => match l with [] => false | _ => true end
  | JDict d => match d with [] => false | _ => true end
  end.

(** The receiver of a [str] method ([.encode], [.split]): any other value
    has no such attribute. *)
Definition as_str (v : json) : result str :=
  match v with
  | JStr s => Ok s
  | _ => Raise AttributeError
  end.

(** The left operand of [/ 1000]: an int, or a bool counting as 0 or 1. *)
Definition as_number (v : json) : result Z :=
  match v with
  | JInt n => Ok n
  | JBool b => Ok (if b then 1 else 0)
  | _ => Raise TypeError
  end.

(** ** The [datetime] library, as far as the code uses it

    Whole seconds only: [ctime] prints no fraction, and the code removes the
    fraction of an ISO string before parsing it.  The host's time zone is a
    function [utcoffset] from a UTC instant (seconds since the epoch) to the
    offset in force then, in seconds east of UTC. *)

Definition is_leap (y : Z) : bool :=
  (y mod 4 =? 0) && (negb (y mod 100 =? 0) || (y mod 400 =? 0)).

Definition days_in_month (y m : Z) : Z :=
  if m =? 2 then (if is_leap y then 29 else 28)
  else if (m =? 4) || (m =? 6) || (m =? 9) || (m =? 11) then 30
  else 31.

(** Days from 1970-01-01 to the given proleptic Gregorian date. *)
Definition days_from_civil (y m d : Z) : Z :=
  let y' := if m <=? 2 then y - 1 else y in
  let era := y' / 400 in
  let yoe := y' - era * 400 in
  let doy := (153 * (if 2 <? m then m - 3 else m + 9) + 2) / 5 + d - 1 in
  let doe := yoe * 365 + yoe / 4 - yoe / 100 + doy in
  era * 146097 + doe - 719468.

(** The date, as (year, month, day), that many days after 1970-01-01. *)
Definition civil_from_days (z : Z) : Z * Z * Z :=
  let z' := z + 719468 in
  let era := z' / 146097 in
  let doe := z' - era * 146097 in
  let yoe := (doe - doe / 1460 + doe / 36524 - doe / 146096) / 365 in
  let doy := doe - (365 * yoe + yoe / 4 - yoe / 100) in
  let mp := (5 * doy + 2) / 153 in
  let d := doy - (153 * mp + 2) / 5 + 1 in
  let m := if mp <? 10 then mp + 3 else mp - 9 in
  (yoe + era * 400 + (if m <=? 2 then 1 else 0), m, d).

Record datetime : Type := mk_datetime {
  dt_year : Z; dt_month : Z; dt_day : Z;
  dt_hour : Z; dt_minute : Z; dt_second : Z;
  dt_tzinfo : option Z  (* [None]: naive; [Some o]: offset [o] seconds *)
}.

(** The checks of the [datetime(...)] constructor. *)
Definition valid_datetime (dt : datetime) : bool :=
  (1 <=? dt_year dt) && (dt_year dt <=? 9999)
  && (1 <=? dt_month dt) && (dt_month dt <=? 12)
  && (1 <=? dt_day dt) && (dt_day dt <=? days_in_month (dt_year dt) (dt_month dt))
  && (0 <=? dt_hour dt) && (dt_hour dt <=? 23)
  && (0 <=? dt_minute dt) && (dt_minute dt <=? 59)
  && (0 <=? dt_second dt) && (dt_second dt <=? 59).

(** Seconds from 1970-01-01 00:00:00 to the wall-clock reading of [dt]. *)
Definition wall_seconds (dt : datetime) : Z :=
  days_from_civil (dt_year dt) (dt_month dt) (dt_day dt) * 86400
  + dt_hour dt * 3600 + dt_minute dt * 60 + dt_second dt.

(** The datetime whose wall clock reads [t] seconds after 1970-01-01
    00:00:00; years outside 1..9999 are refused. *)
Definition of_wall_seconds (t : Z) (tz : option Z) : result datetime :=
  let '(y, m, d) := civil_from_days (t / 86400) in
  let r := t mod 86400 in
  if (1 <=? y) && (y <=? 9999)
  then Ok (mk_datetime y m d (r / 3600) (r mod 3600 / 60) (r mod 60) tz)
  else Raise OverflowError.

Definition DAYNAMES : list str :=
  map lit ["Mon"; "Tue"; "Wed"; "Thu"; "Fri"; "Sat"; "Sun"]%string.

Definition MONTHNAMES : list str :=
  map lit ["Jan"; "Feb"; "Mar"; "Apr"; "May"; "Jun";
           "Jul"; "Aug"; "Sep"; "Oct"; "Nov"; "Dec"]%string.

(** Monday is 0. *)
Definition weekday (dt : datetime) : Z :=
  (days_from_civil (dt_year dt) (dt_month dt) (dt_day dt) + 3) mod 7.

(** ["%02d"], ["%2d"] and ["%04d"] on the ranges a datetime field has. *)
Definition fmt_02d (n : Z) : str := [48 + n / 10; 48 + n mod 10].
Definition fmt_2d (n : Z) : str := if n <? 10 then [32; 48 + n] else fmt_02d n.
Definition fmt_04d (n : Z) : str :=
  [48 + n / 1000; 48 + n / 100 mod 10; 48 + n / 10 mod 10; 48 + n mod 10].

(** [dt.ctime()]: ["%s %s %2d %02d:%02d:%02d %04d"]. *)
Definition ctime (dt : datetime) : str :=
  nth (Z.to_nat (weekday dt)) DAYNAMES [] ++ lit " "
  ++ nth (Z.to_nat (dt_month dt - 1)) MONTHNAMES [] ++ lit " "
  ++ fmt_2d (dt_day dt) ++ lit " "
  ++ fmt_02d (dt_hour dt) ++ lit ":" ++ fmt_02d (dt_minute dt) ++ lit ":"
  ++ fmt_02d (dt_second dt) ++ lit " " ++ fmt_04d (dt_year dt).

(** *** [datetime.fromisoformat], Python 3.7 to 3.10

    The documented input language without its fractions, which cannot
    occur after the code's [split(".")[0]]:
    [YYYY-MM-DD[*HH[:MM[:SS]][+HH:MM[:SS]]]]. *)

Definition digit (c : Z) : option Z :=
  if (48 <=? c) && (c <=? 57) then Some (c - 48) else None.

Fixpoint parse_digits (s : str) (acc : Z) : option Z :=
  match s with
  | [] => Some acc
  | c :: s' => d ← digit c; parse_digits s' (acc * 10 + d)
  end.

(** [HH], [HH:MM] or [HH:MM:SS]. *)
Definition parse_hh_mm_ss (s : str) : option (Z * Z * Z) :=
  match s with
  | [h1; h2] => h ← parse_digits [h1; h2] 0; Some (h, 0, 0)
  | [h1; h2; 58; m1; m2] =>
      h ← parse_digits [h1; h2] 0; m ← parse_digits [m1; m2] 0; Some (h, m, 0)
  | [h1; h2; 58; m1; m2; 58; s1; s2] =>
      h ← parse_digits [h1; h2] 0; m ← parse_digits [m1; m2] 0;
      x ← parse_digits [s1; s2] 0; Some (h, m, x)
  | _ => None
  end.

(** The time string cut at its first ['+'] or ['-']: the part before it, and
    the sign and the part after it when there is one. *)
Fixpoint cut_at_sign (s : str) : str * option (Z * str) :=
  match s with
  | [] => ([], None)
  | c :: s' =>
      if c =? 43 then ([], Some (1, s'))
      else if c =? 45 then ([], Some (-1, s'))
      else let '(a, b) := cut_at_sign s' in (c :: a, b)
  end.

(** The offset [HH:MM] or [HH:MM:SS] after the sign; it must stay strictly
    within a day. *)
Definition parse_tz (sign : Z) (s : str) : option Z :=
  if bool_decide (length s = 5%nat) || bool_decide (length s = 8%nat) then
    '(h, m, x) ← parse_hh_mm_ss s;
    let o := sign * (h * 3600 + m * 60 + x) in
    if (-86400 <? o) && (o <? 86400) then Some o else None
  else None.

Definition parse_isoformat_time (t : str) : option (Z * Z * Z * option Z) :=
  let '(hms, tz) := cut_at_sign t in
  '(h, m, x) ← parse_hh_mm_ss hms;
  match tz with
  | None => Some (h, m, x, None)
  | Some (sign, z) => o ← parse_tz sign z; Some (h, m, x, Some o)
  end.

Definition parse_isoformat_date (d : str) : option (Z * Z * Z) :=
  match d with
  | [y1; y2; y3; y4; 45; m1; m2; 45; d1; d2] =>
      y ← parse_digits [y1; y2; y3; y4] 0; m ← parse_digits [m1; m2] 0;
      x ← parse_digits [d1; d2] 0; Some (y, m, x)
  | _ => None
  end.

Definition fromisoformat (s : str) : result datetime :=
  match parse_isoformat_date (take 10 s) with
  | None => Raise ValueError
  | Some (y, m, d) =>
      let fields :=
        match drop 10 s with
        | [] => Some (0, 0, 0, None)
        | _ :: t => parse_isoformat_time t
        end in
      match fields with
      | None => Raise ValueError
      | Some (hh, mm, ss, tz) =>
          let dt := mk_datetime y m d hh mm ss tz in
          if valid_datetime dt then Ok dt else Raise ValueError
      end
  end.

(** ** The data model: [Message] and [Conversation] *)

Inductive message_kind : Set :=
| text | video | photo | sticker | gif | file | audio | deleted.

Inductive source_app : Set := facebook | discord.

(** [author] is whatever JSON value the ingestion stored: the Facebook branch
    always stores a decoded [str], the Discord branch the raw field. *)
Record Message : Type := mk_Message {
  time : str;
  message_type : message_kind;
  content : str;
  author : json;
  platform : source_app
}.

Record Conversation : Type := mk_Conversation {
  participants_fb : list str;
  participants_discord : list str;
  path : str;
  messages : list Message;
  weekday_frequency : gmap (list Z) nat;
  hour_frequency : gmap (list Z) nat;
  day_frequency : gmap (list Z) nat;
  emoji_frequency : gmap Z nat;
  participants_message_count : gmap (list Z) nat;
  participants_message_length : gmap (list Z) (list nat)
}.

(** [Conversation.__init__]: one empty sample list per listed participant. *)
Definition Conversation_init (path : str) (participants_fb participants_discord : list str)
  : Conversation :=
  mk_Conversation participants_fb participants_discord path [] ∅ ∅ ∅ ∅ ∅
    (list_to_map (map (fun participant => (participant, []))
                      (participants_fb ++ participants_discord))).

Definition add_message (c : Conversation) (message : Message) : Conversation :=
  mk_Conversation (participants_fb c) (participants_discord c) (path c)
    (messages c ++ [message])
    (weekday_frequency c) (hour_frequency c) (day_frequency c) (emoji_frequency c)
    (participants_message_count c) (participants_message_length c).

(** ** The aggregator *)

(** [if key not in d: d[key] = 0] followed by [d[key] += 1]. *)
Definition bump (d : gmap (list Z) nat) (key : str) : gmap (list Z) nat :=
  let d' := match d !! key with None => <[key := 0%nat]> d | Some _ => d end in
  match d' !! key with
  | Some n => <[key := S n]> d'
  | None => d'
  end.

(** [message.time.split(" ")[0]] *)
Definition weekday_key (t : str) : result str := py_index (split_on 32 t) 0.

(** [message.time.split(":")[0].split(" ")[-1]] *)
Definition hour_key (t : str) : result str :=
  let* h := py_index (split_on 58 t) 0 in
  py_index (split_on 32 h) (-1).

(** The f-string of [get_day_frequency]; its three fields are evaluated left
    to right. *)
Definition day_key (t : str) : result str :=
  let* mon := py_index (split_ws t) 1 in
  let* h := py_index (split_on 58 t) 0 in
  let* day := py_index (split_ws h) (-2) in
  let* year := py_index (split_ws t) (-1) in
  Ok (mon ++ lit " " ++ day ++ lit " " ++ year).

(** A histogram loop: every message's key is counted, the first exception
    ends the loop. *)
Fixpoint count_keys (key_of : str -> result str) (d : gmap (list Z) nat)
    (ms : list Message) : result (gmap (list Z) nat) :=
  match ms with
  | [] => Ok d
  | message :: ms' =>
      let* k := key_of (time message) in
      count_keys key_of (bump d k) ms'
  end.

Definition get_weekday_frequency (c : Conversation) : result Conversation :=
  let* d := count_keys weekday_key (weekday_frequency c) (messages c) in
  Ok (mk_Conversation (participants_fb c) (participants_discord c) (path c)
        (messages c) d (hour_frequency c) (day_frequency c) (emoji_frequency c)
        (participants_message_count c) (participants_message_length c)).

Definition get_hour_frequency (c : Conversation) : result Conversation :=
  let* d := count_keys hour_key (hour_frequency c) (messages c) in
  Ok (mk_Conversation (participants_fb c) (participants_discord c) (path c)
        (messages c) (weekday_frequency c) d (day_frequency c) (emoji_frequency c)
        (participants_message_count c) (participants_message_length c)).

Definition get_day_frequency (c : Conversation) : result Conversation :=
  let* d := count_keys day_key (day_frequency c) (messages c) in
  Ok (mk_Conversation (participants_fb c) (participants_discord c) (path c)
        (messages c) (weekday_frequency c) (hour_frequency c) d (emoji_frequency c)
        (participants_message_count c) (participants_message_length c)).

(** One turn of the loop of [analyze_message_length] on the two tables.  The
    author is used as a dictionary key: a list or a dict is unhashable, and a
    hashable value that is no [str] is not among the keys of the sample table,
    which are the participants' names. *)
Definition analyze_one (tables : gmap (list Z) nat * gmap (list Z) (list nat))
    (message : Message) : result (gmap (list Z) nat * gmap (list Z) (list nat)) :=
  let '(count, len) := tables in
  match author message with
  | JStr a =>
      let count := bump count a in
      match len !! a with
      | None => Raise KeyError
      | Some samples => Ok (count, <[a := samples ++ [length (content message)]]> len)
      end
  | JList _ | JDict _ => Raise TypeError
  | JNull | JBool _ | JInt _ => Raise KeyError
  end.

Fixpoint analyze_loop (tables : gmap (list Z) nat * gmap (list Z) (list nat))
    (ms : list Message) : result (gmap (list Z) nat * gmap (list Z) (list nat)) :=
  match ms with
  | [] => Ok tables
  | message :: ms' =>
      let* tables := analyze_one tables message in
      analyze_loop tables ms'
  end.

Definition analyze_message_length (c : Conversation) : result Conversation :=
  let* '(count, len) :=
    analyze_loop (participants_message_count c, participants_message_length c)
                 (messages c) in
  Ok (mk_Conversation (participants_fb c) (participants_discord c) (path c)
        (messages c) (weekday_frequency c) (hour_frequency c) (day_frequency c)
        (emoji_frequency c) count len).

(** ** Ingestion *)

(** The key of the file sort: ["{0:0>20}".format(x).lower()].  [lower] is
    exact on ASCII; other cased letters are left as they are. *)
Definition lower_char (c : Z) : Z := if (65 <=? c) && (c <=? 90) then c + 32 else c.
Definition lower (s : str) : str := map lower_char s.
Definition pad_left_zeros (width : nat) (s : str) : str :=
  replicate (width - length s) 48 ++ s.
Definition sort_key (x : str) : str := lower (pad_left_zeros 20 x).

(** [a < b] on two strings: lexicographic on code points. *)
Fixpoint str_ltb (a b : str) : bool :=
  match a, b with
  | _, [] => false
  | [], _ :: _ => true
  | x :: a', y :: b' => (x <? y) || ((x =? y) && str_ltb a' b')
  end.

(** [list.sort(key=...)] is stable: an element goes before the first one
    whose key is not smaller than its own. *)
Fixpoint insert_by {A} (key : A -> str) (x : A) (l : list A) : list A :=
  match l with
  | [] => [x]
  | y :: l' =>
      if str_ltb (key y) (key x) then y :: insert_by key x l'
      else x :: y :: l'
  end.

Fixpoint sort_by {A} (key : A -> str) (l : list A) : list A :=
  match l with
  | [] => []
  | x :: l' => insert_by key x (sort_by key l')
  end.

Fixpoint ends_with (suffix s : str) : bool :=
  bool_decide (s = suffix) ||
  match s with
  | [] => false
  | _ :: s' => ends_with suffix s'
  end.

(** [glob.glob(f"{path}/*.json")] on a directory given as the names of its
    entries, each with its parsed content, in the order the system lists
    them: the entries ending in [.json] whose name does not start with a
    dot, each under its full path.  The path is taken to hold none of the
    pattern characters [*], [?] and [[] of [glob], which would be expanded,
    and not to end in a slash, which [glob] would drop from the names. *)
Definition glob_json {A} (path : str) (dir : list (str * A)) : list (str * A) :=
  map (fun e => (path ++ lit "/" ++ fst e, snd e))
      (filter (fun e => ends_with (lit ".json") (fst e) = true
                        ∧ is_prefix (lit ".") (fst e) = false) dir).

(** The order in which [load_messages] opens the files. *)
Definition file_list {A} (path : str) (dir : list (str * A)) : list (str * A) :=
  sort_by (fun e => sort_key (fst e)) (glob_json path dir).

Section Host.

(** The host's time zone: the offset from UTC, in seconds, in force at a
    given UTC instant.  [time.localtime] and [tzlocal.get_localzone()] both
    read it. *)
Variable utcoffset : Z -> Z.

(** [time.localtime(u)] as a wall-clock reading in seconds; the library
    refuses a reading outside the years 1..9999 with [ValueError]. *)
Definition local (u : Z) : result Z :=
  match of_wall_seconds (u + utcoffset u) None with
  | Ok _ => Ok (u + utcoffset u)
  | Raise _ => Raise ValueError
  end.

(** [datetime.fromtimestamp(x)] for [x] with integral part [u]: the host's
    wall clock at [u].  To find out whether the reading is the second of a
    repeated hour the library also reads the clock a day earlier and, when
    the offset has dropped since, once more; these readings must be in range
    as well. *)
Definition fromtimestamp (u : Z) : result datetime :=
  let* result_seconds := local u in
  let* probe_seconds := local (u - 86400) in
  let transition := result_seconds - probe_seconds - 86400 in
  let* _ := if transition <? 0 then local (u + transition) else Ok 0 in
  of_wall_seconds result_seconds None.

(** The UTC instant at which the host's wall clock reads [t] (the library's
    [_mktime] with [fold = 0]): both candidate offsets are tried, and a
    reading that never occurs is resolved forwards. *)
Definition mktime (t : Z) : result Z :=
  let* lt := local t in
  let a := lt - t in
  let u1 := t - a in
  let* t1 := local u1 in
  let second (b : Z) : result Z :=
    let u2 := t - b in
    let* t2 := local u2 in
    if t2 =? t then Ok u2
    else if t1 =? t then Ok u1
    else Ok (Z.max u1 u2) in
  if t1 =? t then
    let u2 := u1 - 86400 in
    let* lu2 := local u2 in
    let b := lu2 - u2 in
    if a =? b then Ok u1 else second b
  else second (t1 - u1).

(** [dt.astimezone(get_localzone())]: a naive [dt] is read as host local
    time, an aware one at its own offset; the instant is then shown on the
    host's clock. *)
Definition astimezone (dt : datetime) : result datetime :=
  let* myoffset :=
    match dt_tzinfo dt with
    | None =>
        let* ts := mktime (wall_seconds dt) in
        Ok (utcoffset ts)
    | Some o => Ok o
    end in
  let* utc := of_wall_seconds (wall_seconds dt - myoffset) None in
  let u := wall_seconds utc in
  of_wall_seconds (u + utcoffset u) (Some (utcoffset u)).

(** The reading of [used_app], unbound until a file has set it. *)
Definition read_used_app (used_app : option source_app) : result source_app :=
  match used_app with
  | Some a => Ok a
  | None => Raise UnboundLocalError
  end.

(** The first chain of tests in the loop body: the message type and content,
    or [None] where the code says [continue]. *)
Definition classify (used_app : option source_app) (message : json)
  : result (option (message_kind * str)) :=
  let message_content : str := [] in
  let* c := py_contains (lit "content") message in
  if c then
    let* a := read_used_app used_app in
    let* raw := py_getitem message (lit "content") in
    let* s := as_str raw in
    let* message_content :=
      match a with
      | facebook => repair_latin1 s
      | discord => repair_utf16 s
      end in
    Ok (Some (text, convert_symbols_to_emojis message_content))
  else
  let* c := py_contains (lit "videos") message in
  if c then Ok (Some (video, message_content)) else
  let* c := py_contains (lit "photos") message in
  if c then Ok (Some (photo, message_content)) else
  let* c := py_contains (lit "sticker") message in
  if c then Ok (Some (sticker, message_content)) else
  let* c := py_contains (lit "gifs") message in
  if c then Ok (Some (gif, message_content)) else
  let* c := py_contains (lit "files") message in
  if c then Ok (Some (file, message_content)) else
  let* c := py_contains (lit "audio_files") message in
  if c then Ok (Some (audio, message_content)) else
  let* u := py_getitem message (lit "is_unsent") in
  if truthy u then Ok (Some (deleted, message_content)) else Ok None.

(** The second chain: the date string and the author. *)
Definition date_and_author (used_app : option source_app) (message : json)
  : result (str * json) :=
  let* a := read_used_app used_app in
  match a with
  | facebook =>
      let* message_date := py_getitem message (lit "timestamp_ms") in
      let* ms := as_number message_date in
      let* dt := fromtimestamp (ms / 1000) in
      let message_date := ctime dt in
      let* sender_name := py_getitem message (lit "sender_name") in
      let* s := as_str sender_name in
      let* message_author := repair_latin1 s in
      Ok (message_date, JStr message_author)
  | discord =>
      let* message_date := py_getitem message (lit "timestamp") in
      let* s := as_str message_date in
      let* head := py_index (split_on 46 s) 0 in
      let* dt := fromisoformat head in
      let* dt := astimezone dt in
      let message_date := ctime dt in
      let* au := py_getitem message (lit "author") in
      let* message_author := py_getitem au (lit "name") in
      Ok (message_date, message_author)
  end.

(** The body of the inner loop on one message. *)
Definition load_message (used_app : option source_app) (conversation : Conversation)
    (message : json) : result Conversation :=
  let* k := classify used_app message in
  match k with
  | None => Ok conversation
  | Some (message_type, message_content) =>
      let* '(message_date, message_author) := date_and_author used_app message in
      let* a := read_used_app used_app in
      Ok (add_message conversation
            (mk_Message message_date message_type message_content message_author a))
  end.

Fixpoint load_file_messages (used_app : option source_app) (conversation : Conversation)
    (ms : list json) : result Conversation :=
  match ms with
  | [] => Ok conversation
  | message :: ms' =>
      let* conversation := load_message used_app conversation message in
      load_file_messages used_app conversation ms'
  end.

(** The format test at the head of the outer loop: [used_app] is a local of
    the whole function, so a file matching neither test leaves it as the
    previous file set it. *)
Definition detect (used_app : option source_app) (messages : json) : result (option source_app) :=
  let* c := py_contains (lit "channel") messages in
  if c then Ok (Some discord) else
  let* p := py_contains (lit "participants") messages in
  if p then Ok (Some facebook) else Ok used_app.

(** The outer loop over the parsed files, in the order given. *)
Fixpoint load_files (used_app : option source_app) (conversation : Conversation)
    (files : list json) : result Conversation :=
  match files with
  | [] => Ok conversation
  | messages :: files' =>
      let* used_app := detect used_app messages in
      let* ms := py_getitem messages (lit "messages") in
      let* items := py_iter ms in
      let* conversation := load_file_messages used_app conversation items in
      load_files used_app conversation files'
  end.

(** [load_messages(conversation)] on a directory [dir] found at
    [conversation.path]. *)
Definition load_messages (dir : list (str * json)) (conversation : Conversation)
  : result Conversation :=
  load_files None conversation (map snd (file_list (path conversation) dir)).

End Host.

(** ** Participants recovered from the metadata

    The two loops of [load_conversation_metadata] that build the participant
    lists handed to [Conversation]; its printing of the last time stamps is
    left out. *)

(** [for user in messages["participants"]: ... user["name"] ...] *)
Fixpoint names_of_users (users : list json) : result (list str) :=
  match users with
  | [] => Ok []
  | user :: users' =>
      let* name := py_getitem user (lit "name") in
      let* s := as_str name in
      let* n := repair_latin1 s in
      let* ns := names_of_users users' in
      Ok (n :: ns)
  end.

Definition metadata_participants_fb (messages : json) : result (list str) :=
  let* ps := py_getitem messages (lit "participants") in
  let* users := py_iter ps in
  names_of_users users.

(** [for msg in messages["messages"]: participants_discord.add(...)] *)
Fixpoint nicknames_of (acc : gset (list Z)) (msgs : list json) : result (gset (list Z)) :=
  match msgs with
  | [] => Ok acc
  | msg :: msgs' =>
      let* au := py_getitem msg (lit "author") in
      let* nickname := py_getitem au (lit "nickname") in
      let* s := as_str nickname in
      let* n := repair_utf16 s in
      nicknames_of ({[ n ]} ∪ acc) msgs'
  end.

(** [list(participants_discord)]: the set's elements, in no promised order. *)
Definition metadata_participants_discord (messages : json) : result (list str) :=
  let* ms := py_getitem messages (lit "messages") in
  let* msgs := py_iter ms in
  let* names := nicknames_of ∅ msgs in
  Ok (elements names).

(** ** Emoji usage *)

Definition ORD_EMOJI_CUTOFF : Z := 1000.

Definition NON_EMOJI_ORDS : list Z :=
  [65039; 8205; 8211; 8222; 8220; 8217; 8212; 1618; 127995].

Section Unicode.

(** [str.isalnum] on one character, a table of the Unicode database: with
    the underscore it is what the pattern [\w] accepts. *)
Variable isalnum : Z -> bool.

(** One character of the class [[^\w\s,]]. *)
Definition emoji_candidate (c : Z) : bool :=
  negb (isalnum c || (c =? 95)) && negb (isspace c) && negb (c =? 44).

(** [re.findall(r'[^\w\s,]', content)]: the matching characters, in order. *)
Definition findall_candidates (content : str) : list Z :=
  List.filter emoji_candidate content.

(** The test inside the loop over the candidates. *)
Definition counts_as_emoji (emoji : Z) : bool :=
  (ORD_EMOJI_CUTOFF <? emoji) && negb (bool_decide (emoji ∈ NON_EMOJI_ORDS)).

(** [if emoji not in d: d[emoji] = 0] followed by [d[emoji] += 1]. *)
Definition bump_emoji (d : gmap Z nat) (emoji : Z) : gmap Z nat :=
  let d' := match d !! emoji with None => <[emoji := 0%nat]> d | Some _ => d end in
  match d' !! emoji with
  | Some n => <[emoji := S n]> d'
  | None => d'
  end.

Definition count_emojis (d : gmap Z nat) (emojis : list Z) : gmap Z nat :=
  foldl (fun d emoji => if counts_as_emoji emoji then bump_emoji d emoji else d)
        d emojis.

Definition get_emoji_frequency (c : Conversation) : Conversation :=
  mk_Conversation (participants_fb c) (participants_discord c) (path c)
    (messages c) (weekday_frequency c) (hour_frequency c) (day_frequency c)
    (foldl (fun d message => count_emojis d (findall_candidates (content message)))
           (emoji_frequency c) (messages c))
    (participants_message_count c) (participants_message_length c).

End Unicode.

(** ** The data behind the graphs

    The parts of [create_graphs] and its two helpers that compute what is
    plotted; the drawing itself is left out. *)

(** [l.index(v)]: the first position of [v], or [ValueError]. *)
Fixpoint list_index (l : list str) (v : str) : result nat :=
  match l with
  | [] => Raise ValueError
  | x :: l' =>
      if str_eqb x v then Ok 0%nat
      else let* i := list_index l' v in Ok (S i)
  end.

(** [sorted(d.items())] for a histogram: its keys are distinct, so the pairs
    are ordered by key. *)
Definition sorted_items (d : gmap (list Z) nat) : list (str * nat) :=
  sort_by fst (map_to_list d).

(** [np.array(x)[indices]] for positions inside [x]. *)
Definition take_indices {A} (x : list A) (indices : list nat) : list A :=
  omap (fun i => x !! i) indices.

Fixpoint indices_of (x : list str) (days : list str) : result (list nat) :=
  match days with
  | [] => Ok []
  | day :: days' =>
      let* i := list_index x day in
      let* rest := indices_of x days' in
      Ok (i :: rest)
  end.

(** The first graph: the weekday histogram put in the order of the week. *)
Definition weekday_bars (d : gmap (list Z) nat) : result (list str * list nat) :=
  let items := sorted_items d in
  let x := map fst items in
  let y := map snd items in
  let days := map lit ["Mon"; "Tue"; "Wed"; "Thu"; "Fri"; "Sat"; "Sun"]%string in
  let* indices := indices_of x days in
  Ok (take_indices x indices, take_indices y indices).

(** The block is run only for a histogram that is not empty. *)
Definition weekday_graph (d : gmap (list Z) nat)
  : result (option (list str * list nat)) :=
  if bool_decide (d = ∅) then Ok None
  else let* bars := weekday_bars d in Ok (Some bars).

(** The list [months] of [sortkey_date] and [calculate_ticks_month_year]. *)
Definition months : list str :=
  map lit ["Jan"; "Feb"; "Mar"; "Apr"; "May"; "Jun";
           "Jul"; "Aug"; "Sep"; "Oct"; "Nov"; "Dec"]%string.

(** [sortkey_date(x)] for an item [x] of the day histogram: the list of the
    year, the index of the month and the day padded to two characters, its
    three elements computed in this order. *)
Definition sortkey_date (x : str * nat) : result (str * nat * str) :=
  let* year := py_index (split_ws (fst x)) 2 in
  let* month := py_index (split_ws (fst x)) 0 in
  let* index := list_index months month in
  let* day := py_index (split_ws (fst x)) 1 in
  Ok (year, index, pad_left_zeros 2 day).

(** [a < b] on two such keys: the first element that differs decides. *)
Definition sortkey_ltb (a b : str * nat * str) : bool :=
  let '(ya, ma, da) := a in
  let '(yb, mb, db) := b in
  str_ltb ya yb
  || (bool_decide (ya = yb)
      && ((ma <? mb)%nat || ((ma =? mb)%nat && str_ltb da db))).

(** A stable sort on precomputed keys, as [sorted(..., key=...)] does it. *)
Fixpoint insert_keyed {K A} (ltb : K -> K -> bool) (x : K * A) (l : list (K * A))
  : list (K * A) :=
  match l with
  | [] => [x]
  | y :: l' =>
      if ltb (fst y) (fst x) then y :: insert_keyed ltb x l'
      else x :: y :: l'
  end.

Fixpoint sort_keyed {K A} (ltb : K -> K -> bool) (l : list (K * A)) : list (K * A) :=
  match l with
  | [] => []
  | x :: l' => insert_keyed ltb x (sort_keyed ltb l')
  end.

Fixpoint with_keys {K A} (key : A -> result K) (l : list A) : result (list (K * A)) :=
  match l with
  | [] => Ok []
  | x :: l' =>
      let* k := key x in
      let* ks := with_keys key l' in
      Ok ((k, x) :: ks)
  end.

(** [sorted(items, key=sortkey_date)] on the items of the day histogram, in
    the order the dictionary holds them. *)
Definition sorted_by_date (items : list (str * nat)) : result (list (str * nat)) :=
  let* keyed := with_keys sortkey_date items in
  Ok (map snd (sort_keyed sortkey_ltb keyed)).

(** [np.unique] on strings: the distinct values in increasing order. *)
Fixpoint insert_unique (v : str) (l : list str) : list str :=
  match l with
  | [] => [v]
  | x :: l' =>
      if str_ltb x v then x :: insert_unique v l'
      else if str_eqb x v then x :: l'
      else v :: x :: l'
  end.

Definition np_unique (l : list str) : list str := foldr insert_unique [] l.

(** The tick found for one month of one year, when some date has both. *)
Definition tick_of (full_dates : list str) (year month : str) : list (nat * str) :=
  let full_date := month ++ lit " " ++ year in
  match list_index full_dates full_date with
  | Ok position => [(position, full_date)]
  | Raise _ => []
  end.

(** [calculate_ticks_month_year(months, years)]: positions and ticks, here as
    one list of pairs. *)
Definition calculate_ticks_month_year (months_in years_in : list str)
  : list (nat * str) :=
  let full_dates := map (fun xy => fst xy ++ lit " " ++ snd xy) (zip months_in years_in) in
  let years := np_unique years_in in
  flat_map (fun year => flat_map (tick_of full_dates year) months) years.

(** * Vocabulary of the properties

    Predicates and functions the statements below are written with, the
    rules of the specification that the code is compared against, and the
    concrete exports used as examples. *)

(** ** Words and rendered dates *)

(** A word: not empty and free of whitespace. *)
Definition is_word (w : str) : bool :=
  match w with
  | [] => false
  | _ => forallb (fun c => negb (isspace c)) w
  end.

(** What one token becomes. *)
Definition rewrite_token (i : str) : str := dict_get convertable_emojis i i.

Definition free_of (sep : Z) (w : str) : bool := forallb (fun c => negb (c =? sep)) w.

(** A plain word: a word without a colon. *)
Definition is_plain (w : str) : bool := is_word w && free_of 58 w.

(** The seven parts of a rendered date put together; [pad] is the blank that
    ["%2d"] puts before a one-digit day. *)
Definition rendered_date (wd mon day hh mm ss yyyy pad : str) : str :=
  wd ++ 32 :: mon ++ 32 :: pad ++ day ++ 32 :: hh ++ 58 :: mm ++ 58 :: ss ++ 32 :: yyyy.

Definition clock_of (hh mm ss : str) : str := hh ++ 58 :: mm ++ 58 :: ss.

(** The text of a rendered date before its first colon. *)
Definition date_before_colon (wd mon day hh pad : str) : str :=
  wd ++ 32 :: mon ++ 32 :: pad ++ day ++ 32 :: hh.

Definition in_range (dt : datetime) : Prop :=
  1 <= dt_year dt <= 9999 /\ 1 <= dt_month dt <= 12 /\ 1 <= dt_day dt <= 31
  /\ 0 <= dt_hour dt <= 23 /\ 0 <= dt_minute dt <= 59 /\ 0 <= dt_second dt <= 59.

(** The day of the month as [ctime] shows it after the padding. *)
Definition day_digits (d : Z) : str := if d <? 10 then [48 + d] else fmt_02d d.

(** What the aggregator relies on: the five whitespace tokens of a date
    string, and the three keys its histograms extract from it. *)
Definition ctime_layout (t : str) : Prop :=
  exists wd mon d h m s y : Z,
    (0 <= wd < 7 /\ 1 <= mon <= 12 /\ 1 <= d <= 31 /\ 0 <= h <= 23
     /\ 0 <= m <= 59 /\ 0 <= s <= 59 /\ 1 <= y <= 9999)
    /\ split_ws t
       = [ nth (Z.to_nat wd) DAYNAMES []; nth (Z.to_nat (mon - 1)) MONTHNAMES [];
           day_digits d; fmt_02d h ++ lit ":" ++ fmt_02d m ++ lit ":" ++ fmt_02d s;
           fmt_04d y ]
    /\ weekday_key t = Ok (nth (Z.to_nat wd) DAYNAMES [])
    /\ hour_key t = Ok (fmt_02d h)
    /\ day_key t = Ok (nth (Z.to_nat (mon - 1)) MONTHNAMES [] ++ lit " "
                       ++ day_digits d ++ lit " " ++ fmt_04d y).

(** ** Ingested messages and their authors *)

(** A message as the loop body builds it from one message object, under
    the value [used_app] has at that point. *)
Definition produced (utcoffset : Z -> Z) (m : Message) : Prop :=
  exists message,
    classify (Some (platform m)) message = Ok (Some (message_type m, content m))
    /\ date_and_author utcoffset (Some (platform m)) message = Ok (time m, author m).

(** The samples the loop of [analyze_message_length] records for one author:
    the content length of each of the author's messages, in order. *)
Definition samples_of (p : str) (ms : list Message) : list nat :=
  map (fun m => length (content m)) (List.filter (fun m => is_str_eq p (author m)) ms).

(** The author is a string that the sample table [len] has a key for. *)
Definition listed (len : gmap (list Z) (list nat)) (m : Message) : Prop :=
  exists a, author m = JStr a /\ is_Some (len !! a).

(** The author is a string among the participants of either platform. *)
Definition author_known (ps : list str) (m : Message) : Prop :=
  exists a, author m = JStr a /\ a ∈ ps.

(** A conversation as ingestion leaves it: created from the metadata, then
    only appended to. *)
Definition ingested (path : str) (fb dc : list str) (ms : list Message) : Conversation :=
  foldl add_message (Conversation_init path fb dc) ms.

(** ** Concrete exports *)

(** A host whose clock shows UTC. *)
Definition utc_host : Z -> Z := fun _ => 0.

Definition fb_export (msgs : list json) : json :=
  JDict [ (lit "participants", JList [JDict [(lit "name", JStr (lit "A"))]]);
          (lit "messages", JList msgs) ].

Definition discord_export (msgs : list json) : json :=
  JDict [ (lit "channel", JDict [(lit "name", JStr (lit "general"))]);
          (lit "messages", JList msgs) ].

Definition fb_message (fields : list (str * json)) : json :=
  JDict ((lit "sender_name", JStr (lit "A"))
         :: (lit "timestamp_ms", JInt 1614861296000) :: fields).

Definition discord_message (name timestamp : str) (fields : list (str * json)) : json :=
  JDict ((lit "author", JDict [(lit "name", JStr name); (lit "nickname", JStr (lit "Bobby"))])
         :: (lit "timestamp", JStr timestamp) :: fields).

(** The seven payload fields the loop body tests for. *)
Definition payload_fields : list str :=
  map lit ["content"; "videos"; "photos"; "sticker"; "gifs"; "files"; "audio_files"]%string.

Definition unflagged_dir : list (str * json) :=
  [ (lit "message_1.json", fb_export [fb_message []]) ].

Definition flagged_dir : list (str * json) :=
  [ (lit "message_1.json", fb_export [fb_message [(lit "is_unsent", JBool false)]]) ].

Definition no_format_file : json :=
  JDict [ (lit "messages", JList [fb_message [(lit "videos", JList [])]]) ].

Definition stale_format_dir : list (str * json) :=
  [ (lit "message_1.json", fb_export []); (lit "message_2.json", no_format_file) ].

Definition only_dropped_dir : list (str * json) :=
  [ (lit "message_1.json",
     JDict [ (lit "messages", JList [fb_message [(lit "is_unsent", JBool false)]]) ]) ].

(** ** Rules of the specification *)

(** The rule of the specification for a Discord time stamp, to compare the
    code with: only the fraction of the seconds (the dot and the digits
    after it) is removed, so that the offset stays in the string that is
    parsed. *)
Fixpoint drop_digits (s : str) : str :=
  match s with
  | [] => []
  | c :: s' => if (48 <=? c) && (c <=? 57) then drop_digits s' else s
  end.

Fixpoint strip_subsecond (s : str) : str :=
  match s with
  | [] => []
  | c :: s' => if c =? 46 then drop_digits s' else c :: strip_subsecond s'
  end.

Definition spec_discord_time (utcoffset : Z -> Z) (timestamp : str) : result str :=
  let* dt := fromisoformat (strip_subsecond timestamp) in
  let* dt := astimezone utcoffset dt in
  Ok (ctime dt).

Definition offset_dir : list (str * json) :=
  [ (lit "general.json",
     discord_export [discord_message (lit "bob") (lit "2021-03-04T12:34:56.789+02:00")
                       [(lit "content", JStr (lit "hello"))]]) ].

(** The name is the JSON text ["\ud83d"]: a high surrogate on its own. *)
Definition lone_surrogate_dir : list (str * json) :=
  [ (lit "general.json",
     discord_export [discord_message [55357] (lit "2021-03-04T12:34:56")
                       [(lit "content", JStr (lit "hello"))]]) ].

Definition numbered_file (n : string) : str * json :=
  (lit "message_" ++ lit n ++ lit ".json",
   fb_export [fb_message [(lit "content", JStr (lit n))]]).

(** The twelve files, as the system happens to list them. *)
Definition twelve_files : list (str * json) :=
  map numbered_file
    ["1"; "2"; "3"; "4"; "5"; "6"; "7"; "8"; "9"; "10"; "11"; "12"]%string.

(** The payload tests in the order of the specification. *)
Definition payload_checks : list (str * message_kind) :=
  [ (lit "content", text); (lit "videos", video); (lit "photos", photo);
    (lit "sticker", sticker); (lit "gifs", gif); (lit "files", file);
    (lit "audio_files", audio) ].

Definition has_field (k : str) (message : json) : bool :=
  match py_contains k message with
  | Ok b => b
  | Raise _ => false
  end.

(** First match wins; the deleted flag is looked at last. *)
Definition first_match (message : json) : option message_kind :=
  match List.find (fun c => has_field (fst c) message) payload_checks with
  | Some (_, k) => Some k
  | None =>
      match py_getitem message (lit "is_unsent") with
      | Ok u => if truthy u then Some deleted else None
      | Raise _ => None
      end
  end.

Definition caption_and_video : json :=
  fb_message [(lit "videos", JList [JDict [(lit "uri", JStr (lit "v.mp4"))]]);
              (lit "content", JStr (lit "look :D"))].

(** A message with a photo and a video and no text, the photo listed first. *)
Definition video_and_photo : json :=
  fb_message [(lit "photos", JList [JDict [(lit "uri", JStr (lit "p.jpg"))]]);
              (lit "videos", JList [JDict [(lit "uri", JStr (lit "v.mp4"))]])].

Definition is_text (k : message_kind) : bool :=
  match k with
  | text => true
  | _ => false
  end.

(** The samples as the specification describes them: the lengths of the
    author's text messages only. *)
Definition text_lengths_of (p : str) (ms : list Message) : list nat :=
  map (fun m => length (content m))
      (List.filter (fun m => is_str_eq p (author m) && is_text (message_type m)) ms).

Definition photo_dir : list (str * json) :=
  [ (lit "message_1.json", fb_export [fb_message [(lit "photos", JList [])]]) ].

Definition photo_conversation : Conversation :=
  ingested (lit "kiki") [lit "A"] []
    [mk_Message (lit "Thu Mar  4 12:34:56 2021") photo [] (JStr (lit "A")) facebook].

Definition mixed_dir : list (str * json) :=
  [ (lit "message_1.json",
     fb_export [fb_message [(lit "content", JStr (lit "hi :) you"))]]);
    (lit "general.json",
     discord_export [discord_message (lit "bob") (lit "2021-12-25T23:59:58+00:00")
                       [(lit "content", JStr (lit "merry"))]]) ].

Definition mixed_conversation : Conversation :=
  ingested (lit "kiki") [lit "A"] [lit "Bobby"]
    [ mk_Message (lit "Sat Dec 25 23:59:58 2021") text (lit "merry")
        (JStr (lit "bob")) discord;
      mk_Message (lit "Thu Mar  4 12:34:56 2021") text (lit "hi " ++ [128578] ++ lit " you")
        (JStr (lit "A")) facebook ].

(** ** Unicode text *)

(** A Unicode scalar value: a code point that is no surrogate. *)
Definition is_scalar (c : Z) : bool :=
  (0 <=? c) && (c <=? 1114111) && negb ((55296 <=? c) && (c <=? 57343)).

(** The UTF-8 encoding of one scalar value, and of a string. *)
Definition encode_utf8_char (c : Z) : list Z :=
  if c <? 128 then [c]
  else if c <? 2048 then [192 + c / 64; 128 + c mod 64]
  else if c <? 65536 then [224 + c / 4096; 128 + c / 64 mod 64; 128 + c mod 64]
  else [240 + c / 262144; 128 + c / 4096 mod 64; 128 + c / 64 mod 64; 128 + c mod 64].

Definition encode_utf8 (s : str) : list Z := flat_map encode_utf8_char s.

Definition is_surrogate (c : Z) : bool := is_high_surrogate c || is_low_surrogate c.

(** ** Histograms *)

(** The extraction [key_of] yields the key [k] on the message's time. *)
Definition has_key (key_of : str -> result str) (k : str) (m : Message) : bool :=
  match key_of (time m) with
  | Ok k' => str_eqb k' k
  | Raise _ => false
  end.

(** How many of the messages have the key [k]. *)
Definition occurrences (key_of : str -> result str) (k : str) (ms : list Message) : nat :=
  length (List.filter (has_key key_of k) ms).

(** The count a histogram holds for a key, 0 for a key it does not have. *)
Definition count_at (d : gmap (list Z) nat) (k : str) : nat := default 0%nat (d !! k).

(** The sum of all the counts of a histogram. *)
Definition total_count (d : gmap (list Z) nat) : nat :=
  map_fold (fun _ n acc => (n + acc)%nat) 0%nat d.

(** The key of the day histogram for a date. *)
Definition day_label (y m d : Z) : str :=
  nth (Z.to_nat (m - 1)) MONTHNAMES [] ++ lit " " ++ day_digits d ++ lit " " ++ fmt_04d y.

Definition valid_date (y m d : Z) : Prop :=
  1 <= y <= 9999 /\ 1 <= m <= 12 /\ 1 <= d <= 31.

(** Dates in the order of the calendar. *)
Definition date_rank (y m d : Z) : Z := (y * 100 + m) * 100 + d.

(** An item of the day histogram for a date with its count, and the date's
    place in the calendar. *)
Definition dated_item (x : Z * Z * Z * nat) : str * nat :=
  let '(y, m, d, n) := x in (day_label y m d, n).

Definition item_rank (x : Z * Z * Z * nat) : Z :=
  let '(y, m, d, _) := x in date_rank y m d.

Definition item_valid (x : Z * Z * Z * nat) : Prop :=
  let '(y, m, d, _) := x in valid_date y m d.

(** ** Metadata *)

(** The repaired nickname of the author of one Discord message object. *)
Definition nickname_of (msg : json) : result str :=
  let* au := py_getitem msg (lit "author") in
  let* nickname := py_getitem au (lit "nickname") in
  let* s := as_str nickname in
  repair_utf16 s.

(** ** Numbered files *)

(** The decimal digits of a number from 1 to 99. *)
Definition file_number (n : Z) : str :=
  if n <? 10 then [48 + n] else [48 + n / 10; 48 + n mod 10].

(** The name of the [n]-th file of a Facebook export. *)
Definition message_name (n : Z) : str :=
  lit "message_" ++ file_number n ++ lit ".json".

(** The characters [*], [?] and [[], which [glob] reads as a pattern. *)
Definition glob_magic (c : Z) : bool := (c =? 42) || (c =? 63) || (c =? 91).

(** A path that [glob] takes as it is written, so that [path/*.json] lists
    the directory [path] under the names [path/name]: no pattern character,
    no NUL, and no slash at the end. *)
Definition literal_path (path : str) : bool :=
  forallb (fun c => negb (glob_magic c) && negb (c =? 0)) path
  && negb (bool_decide (last path = Some 47)).

(** The keys of two entries are in order, or equal. *)
Definition key_le {A} (key : A -> str) (a b : A) : Prop :=
  str_ltb (key b) (key a) = false.

(** ** Message objects *)

(** A message object that carries nothing the loop body keeps: no payload
    field, and an [is_unsent] field that is false. *)
Definition is_empty_entry (message : json) : Prop :=
  exists d u,
    message = JDict d
    /\ Forall (fun k => dict_lookup d k = None) payload_fields
    /\ dict_lookup d (lit "is_unsent") = Some u /\ truthy u = false.

(** The token is one of the emoticons of the table. *)
Definition is_emoticon (token : str) : bool :=
  existsb (fun kv => str_eqb (fst kv) token) convertable_emojis.

(** ** Emoji counts *)

(** The count the emoji table holds for a character, 0 for one it lacks. *)
Definition emoji_count_at (d : gmap Z nat) (e : Z) : nat := default 0%nat (d !! e).

(** The occurrences of [e] in [s] that the loop counts. *)
Definition counted_in (isalnum : Z -> bool) (e : Z) (s : str) : nat :=
  length (List.filter (fun c => emoji_candidate isalnum c && counts_as_emoji c
                               && bool_decide (c = e)) s).

(** A character that the loop counts. *)
Definition counted_character (isalnum : Z -> bool) (e : Z) : bool :=
  negb (isalnum e) && negb (e =? 95) && negb (isspace e) && negb (e =? 44)
  && (1000 <? e) && negb (bool_decide (e ∈ NON_EMOJI_ORDS)).

(** * Properties *)

(** ** Words and the two splits *)

Lemma is_word_cons c w :
  is_word (c :: w) = true -> isspace c = false /\ (w = [] \/ is_word w = true).
Proof.
  simpl. intros H. apply andb_true_iff in H. destruct H as [Hc Hw]. split.
  - now destruct (isspace c).
  - destruct w as [|d w]; [now left | right; exact Hw].
Qed.

Lemma split_ws_word w : is_word w = true -> split_ws w = [w].
Proof.
  induction w as [|c w IH]; [discriminate|].
  intros H. destruct (is_word_cons _ _ H) as [Hc [-> | Hw]].
  - simpl. now rewrite Hc.
  - specialize (IH Hw). destruct w as [|d w]; [discriminate|].
    destruct (is_word_cons _ _ Hw) as [Hd _].
    change (split_ws (c :: d :: w))
      with (if isspace c then split_ws (d :: w)
            else if isspace d then [c] :: split_ws (d :: w)
            else match split_ws (d :: w) with
                 | u :: us => (c :: u) :: us
                 | [] => [[c]]
                 end).
    now rewrite Hc, Hd, IH.
Qed.

Lemma split_ws_word_space w c rest :
  is_word w = true -> isspace c = true ->
  split_ws (w ++ c :: rest) = w :: split_ws rest.
Proof.
  intros Hw Hc. induction w as [|x w IH]; [discriminate|].
  destruct (is_word_cons _ _ Hw) as [Hx [-> | Hw']].
  - simpl. now rewrite Hx, Hc.
  - specialize (IH Hw'). destruct w as [|d w]; [discriminate|].
    destruct (is_word_cons _ _ Hw') as [Hd _].
    change (split_ws ((x :: d :: w) ++ c :: rest))
      with (if isspace x then split_ws ((d :: w) ++ c :: rest)
            else if isspace d then [x] :: split_ws ((d :: w) ++ c :: rest)
            else match split_ws ((d :: w) ++ c :: rest) with
                 | u :: us => (x :: u) :: us
                 | [] => [[x]]
                 end).
    now rewrite Hx, Hd, IH.
Qed.

Lemma split_ws_space c rest : isspace c = true -> split_ws (c :: rest) = split_ws rest.
Proof. intros H. simpl. now rewrite H. Qed.

Lemma split_ws_words s : forallb is_word (split_ws s) = true.
Proof.
  induction s as [|c s IH]; [reflexivity|].
  simpl. destruct (isspace c) eqn:Hc; [exact IH|].
  destruct s as [|d s]; [simpl; now rewrite Hc|].
  destruct (isspace d) eqn:Hd.
  - change (is_word [c] && forallb is_word (split_ws (d :: s)) = true).
    rewrite IH. simpl. now rewrite Hc.
  - destruct (split_ws (d :: s)) as [|u us]; [simpl; now rewrite Hc|].
    simpl in IH. apply andb_true_iff in IH. destruct IH as [Hu Hus].
    change (is_word (c :: u) && forallb is_word us = true).
    rewrite Hus, andb_true_r.
    destruct u as [|e u]; [discriminate|].
    change (negb (isspace c) && is_word (e :: u) = true). now rewrite Hc, Hu.
Qed.

Lemma split_ws_join ws :
  forallb is_word ws = true -> split_ws (join (lit " ") ws) = ws.
Proof.
  induction ws as [|w ws IH]; [reflexivity|].
  intros H. simpl in H. apply andb_true_iff in H. destruct H as [Hw Hws].
  destruct ws as [|v ws].
  - simpl. now apply split_ws_word.
  - change (join (lit " ") (w :: v :: ws)) with (w ++ 32 :: join (lit " ") (v :: ws)).
    rewrite split_ws_word_space by (assumption || reflexivity).
    now rewrite IH.
Qed.

Lemma rewrite_token_listed i e :
  In (i, e) convertable_emojis -> rewrite_token i = e.
Proof.
  unfold convertable_emojis. simpl.
  intros H. repeat (destruct H as [H | H]; [injection H as <- <-; reflexivity|]).
  destruct H.
Qed.

Lemma dict_get_unlisted {V} (d : list (str * V)) k v :
  (forall e, ~ In (k, e) d) -> dict_get d k v = v.
Proof.
  induction d as [|[k' e'] d IH]; [reflexivity|].
  intros H. simpl. unfold str_eqb. destruct (bool_decide (k' = k)) eqn:E.
  - apply bool_decide_eq_true in E. subst. exfalso. apply (H e'). now left.
  - apply IH. intros e He. apply (H e). now right.
Qed.

Lemma rewrite_token_word i : is_word i = true -> is_word (rewrite_token i) = true.
Proof.
  intros Hi. unfold rewrite_token.
  assert (Hd : forallb (fun kv => is_word (snd kv)) convertable_emojis = true)
    by reflexivity.
  revert Hd. generalize convertable_emojis.
  induction l as [|[k e] l IH]; [easy|].
  simpl. intros H. apply andb_true_iff in H. destruct H as [He Hl].
  destruct (str_eqb k i); [exact He | now apply IH].
Qed.

(** C8: the emoticon rewrite splits the message on whitespace, replaces each
    token that equals an entry of the emoticon table by the entry's emoji,
    leaves every other token as it is, and joins the tokens with single
    spaces; so the tokens of the output are the rewritten tokens of the input,
    ["hi :) you"] becomes ["hi 🙂 you"] and ["hi:)you"] stays as it is. *)
Theorem convert_symbols_to_emojis_token_exact :
  (forall message,
     convert_symbols_to_emojis message
       = join (lit " ") (map rewrite_token (split_ws message))
     /\ split_ws (convert_symbols_to_emojis message)
        = map rewrite_token (split_ws message))
  /\ (forall i e, In (i, e) convertable_emojis -> rewrite_token i = e)
  /\ (forall i, (forall e, ~ In (i, e) convertable_emojis) -> rewrite_token i = i)
  /\ convert_symbols_to_emojis (lit "hi :) you") = lit "hi " ++ [128578] ++ lit " you"
  /\ convert_symbols_to_emojis (lit "hi:)you") = lit "hi:)you".
Proof.
  split; [|split; [|split; [|split]]].
  - intros message. split; [reflexivity|].
    unfold convert_symbols_to_emojis. apply split_ws_join.
    pose proof (split_ws_words message) as H. revert H.
    generalize (split_ws message). induction l as [|w l IH]; [easy|].
    simpl. intros H. apply andb_true_iff in H. destruct H as [Hw Hl].
    change (is_word (rewrite_token w) && forallb is_word (map rewrite_token l) = true).
    now rewrite rewrite_token_word, IH.
  - exact rewrite_token_listed.
  - intros i H. now apply dict_get_unlisted.
  - reflexivity.
  - reflexivity.
Qed.

(** ** The layout of [ctime] under the aggregator's splits *)

Lemma split_on_free sep w : free_of sep w = true -> split_on sep w = [w].
Proof.
  induction w as [|c w IH]; [reflexivity|].
  simpl. intros H. apply andb_true_iff in H. destruct H as [Hc Hw].
  apply negb_true_iff in Hc. now rewrite Hc, IH.
Qed.

Lemma split_on_app sep w rest :
  free_of sep w = true -> split_on sep (w ++ sep :: rest) = w :: split_on sep rest.
Proof.
  induction w as [|c w IH]; simpl.
  - now rewrite Z.eqb_refl.
  - intros H. apply andb_true_iff in H. destruct H as [Hc Hw].
    apply negb_true_iff in Hc. now rewrite Hc, IH.
Qed.

Lemma split_on_last sep x w :
  free_of sep w = true ->
  exists p pre, split_on sep (x ++ sep :: w) = p :: pre ++ [w].
Proof.
  intros Hw. induction x as [|c x (p & pre & IH)]; simpl.
  - rewrite Z.eqb_refl, split_on_free by assumption. now exists [], [].
  - rewrite IH. destruct (c =? sep).
    + now exists [], (p :: pre).
    + now exists (c :: p), pre.
Qed.

Lemma py_index_last {A} (l : list A) x : py_index (l ++ [x]) (-1) = Ok x.
Proof.
  unfold py_index. rewrite length_app. simpl length.
  replace (-1 <? 0) with true by reflexivity.
  replace (-1 + Z.of_nat (length l + 1)) with (Z.of_nat (length l)) by lia.
  destruct (Z.ltb_spec (Z.of_nat (length l)) 0); [lia|].
  destruct (Z.leb_spec (Z.of_nat (length l + 1)) (Z.of_nat (length l))); [lia|].
  simpl. rewrite Nat2Z.id.
  rewrite lookup_app_r by lia. now rewrite Nat.sub_diag.
Qed.

Lemma free_of_space w : is_word w = true -> free_of 32 w = true.
Proof.
  destruct w as [|c w]; [discriminate|]. unfold is_word.
  generalize (c :: w). induction l as [|d l IH]; [reflexivity|].
  simpl. intros H. apply andb_true_iff in H. destruct H as [Hd Hl].
  rewrite IH by assumption. rewrite andb_true_r.
  destruct (Z.eqb_spec d 32) as [-> | _]; [discriminate | reflexivity].
Qed.

Lemma free_of_app sep a b : free_of sep (a ++ b) = free_of sep a && free_of sep b.
Proof. apply forallb_app. Qed.

Lemma is_word_app a b : is_word a = true -> is_word b = true -> is_word (a ++ b) = true.
Proof.
  destruct a as [|c a]; [discriminate|]. destruct b as [|d b]; [discriminate|].
  unfold is_word. simpl app. intros Ha Hb.
  change (forallb (fun c => negb (isspace c)) ((c :: a) ++ d :: b) = true).
  now rewrite forallb_app, Ha, Hb.
Qed.

Section Layout.

Variables wd mon day hh mm ss yyyy pad : str.
Hypothesis Hwd : is_plain wd = true.
Hypothesis Hmon : is_plain mon = true.
Hypothesis Hday : is_plain day = true.
Hypothesis Hhh : is_plain hh = true.
Hypothesis Hmm : is_plain mm = true.
Hypothesis Hss : is_plain ss = true.
Hypothesis Hyyyy : is_plain yyyy = true.
Hypothesis Hpad : pad = [] \/ pad = [32].

Local Abbreviation rendered := (rendered_date wd mon day hh mm ss yyyy pad).
Local Abbreviation clock := (clock_of hh mm ss).
Local Abbreviation before_colon := (date_before_colon wd mon day hh pad).

Local Ltac plain H := apply andb_true_iff in H; destruct H as [? ?].

Lemma clock_word : is_word clock = true.
Proof using Hhh Hmm Hss.
  plain Hhh. plain Hmm. plain Hss. unfold clock_of.
  apply is_word_app; [assumption|].
  change (is_word ([58] ++ mm ++ [58] ++ ss) = true).
  repeat apply is_word_app; auto.
Qed.

Lemma split_ws_pad rest : split_ws (pad ++ rest) = split_ws rest.
Proof using Hpad. destruct Hpad as [-> | ->]; reflexivity. Qed.

Lemma rendered_split_ws : split_ws rendered = [wd; mon; day; clock; yyyy].
Proof using All.
  pose proof clock_word as Hc.
  plain Hwd. plain Hmon. plain Hday. plain Hyyyy.
  unfold rendered_date.
  rewrite split_ws_word_space by (assumption || reflexivity).
  rewrite split_ws_word_space by (assumption || reflexivity).
  rewrite split_ws_pad.
  rewrite split_ws_word_space by (assumption || reflexivity).
  replace (hh ++ 58 :: mm ++ 58 :: ss ++ 32 :: yyyy) with (clock ++ 32 :: yyyy)
    by (unfold clock_of; repeat (rewrite <- ?app_assoc; simpl); reflexivity).
  rewrite split_ws_word_space by (assumption || reflexivity).
  now rewrite split_ws_word.
Qed.

Lemma rendered_before_colon : py_index (split_on 58 rendered) 0 = Ok before_colon.
Proof using All.
  plain Hwd. plain Hmon. plain Hday. plain Hhh.
  assert (Hp : free_of 58 pad = true) by (destruct Hpad as [-> | ->]; reflexivity).
  assert (Hf : free_of 58 before_colon = true).
  { unfold date_before_colon.
    change (free_of 58 (wd ++ [32] ++ mon ++ [32] ++ pad ++ day ++ [32] ++ hh) = true).
    rewrite !free_of_app. repeat (apply andb_true_iff; split); auto. }
  replace rendered with (before_colon ++ 58 :: mm ++ 58 :: ss ++ 32 :: yyyy).
  - rewrite split_on_app by assumption. reflexivity.
  - unfold rendered_date, date_before_colon. repeat (rewrite <- ?app_assoc; simpl). reflexivity.
Qed.

Lemma before_colon_split_ws : split_ws before_colon = [wd; mon; day; hh].
Proof using All.
  plain Hwd. plain Hmon. plain Hday. plain Hhh.
  unfold date_before_colon.
  rewrite split_ws_word_space by (assumption || reflexivity).
  rewrite split_ws_word_space by (assumption || reflexivity).
  rewrite split_ws_pad.
  rewrite split_ws_word_space by (assumption || reflexivity).
  now rewrite split_ws_word.
Qed.

Lemma rendered_weekday_key : weekday_key rendered = Ok wd.
Proof using Hwd.
  plain Hwd. unfold weekday_key, rendered_date.
  rewrite split_on_app by now apply free_of_space. reflexivity.
Qed.

Lemma rendered_hour_key : hour_key rendered = Ok hh.
Proof using All.
  unfold hour_key. rewrite rendered_before_colon. simpl rbind.
  plain Hhh.
  destruct (split_on_last 32 (wd ++ 32 :: mon ++ 32 :: pad ++ day) hh) as (p & pre & E);
    [now apply free_of_space|].
  replace before_colon with ((wd ++ 32 :: mon ++ 32 :: pad ++ day) ++ 32 :: hh).
  - rewrite E. apply (py_index_last (p :: pre)).
  - unfold date_before_colon. repeat (rewrite <- ?app_assoc; simpl). reflexivity.
Qed.

Lemma rendered_day_key : day_key rendered = Ok (mon ++ lit " " ++ day ++ lit " " ++ yyyy).
Proof using All.
  unfold day_key. rewrite rendered_split_ws, rendered_before_colon. simpl rbind.
  rewrite before_colon_split_ws. reflexivity.
Qed.

End Layout.

(** ** Dates produced by the library are in range *)

Lemma civil_from_days_range z :
  1 <= snd (fst (civil_from_days z)) <= 12 /\ 1 <= snd (civil_from_days z) <= 31.
Proof.
  unfold civil_from_days. cbv zeta. cbn [fst snd].
  set (z' := z + 719468).
  set (era := z' / 146097).
  set (doe := z' - era * 146097).
  assert (Hdoe : 0 <= doe < 146097).
  { subst doe era. pose proof (Z.mod_pos_bound z' 146097).
    pose proof (Z.div_mod z' 146097). lia. }
  clearbody doe. clear z z' era.
  set (yoe := (doe - doe / 1460 + doe / 36524 - doe / 146096) / 365).
  set (doy := doe - (365 * yoe + yoe / 4 - yoe / 100)).
  assert (Hdoy : 0 <= doy <= 365).
  { subst doy yoe. Z.div_mod_to_equations. lia. }
  clearbody doy. clear yoe.
  set (mp := (5 * doy + 2) / 153).
  destruct (Z.ltb_spec mp 10); subst mp; Z.div_mod_to_equations; lia.
Qed.

Lemma of_wall_seconds_in_range t tz dt :
  of_wall_seconds t tz = Ok dt -> in_range dt.
Proof.
  unfold of_wall_seconds.
  pose proof (civil_from_days_range (t / 86400)) as [Hm Hd].
  destruct (civil_from_days (t / 86400)) as [[y m] d]. cbn [fst snd] in Hm, Hd.
  destruct (Z.leb_spec 1 y); [|discriminate].
  destruct (Z.leb_spec y 9999); [|discriminate].
  simpl. intros [= <-]. unfold in_range. cbn.
  pose proof (Z.mod_pos_bound t 86400).
  repeat split; try lia; Z.div_mod_to_equations; lia.
Qed.

Lemma days_in_month_le y m : days_in_month y m <= 31.
Proof.
  unfold days_in_month.
  destruct (m =? 2); [destruct (is_leap y); lia|].
  destruct ((m =? 4) || (m =? 6) || (m =? 9) || (m =? 11)); lia.
Qed.

Lemma valid_datetime_in_range dt : valid_datetime dt = true -> in_range dt.
Proof.
  unfold valid_datetime, in_range. intros H.
  repeat (apply andb_true_iff in H; destruct H as [H ?]).
  pose proof (days_in_month_le (dt_year dt) (dt_month dt)).
  lia.
Qed.

Lemma fromisoformat_valid s dt : fromisoformat s = Ok dt -> valid_datetime dt = true.
Proof.
  unfold fromisoformat.
  destruct (parse_isoformat_date (take 10 s)) as [[[y m] d]|]; [|discriminate].
  destruct (match drop 10 s with [] => _ | _ :: t => _ end) as [[[[hh mm] ss] tz]|];
    [|discriminate].
  destruct (valid_datetime _) eqn:E; [|discriminate].
  now intros [= <-].
Qed.

(** ** Rendering a date in range *)

Lemma digit_plain c : 48 <= c <= 57 -> negb (isspace c) && negb (c =? 58) = true.
Proof.
  intros H.
  assert (E : c = 48 \/ c = 49 \/ c = 50 \/ c = 51 \/ c = 52 \/ c = 53 \/ c = 54
              \/ c = 55 \/ c = 56 \/ c = 57) by lia.
  repeat (destruct E as [-> | E]; [reflexivity|]). now subst.
Qed.

Lemma digits_plain w :
  w <> [] -> Forall (fun c => 48 <= c <= 57) w -> is_plain w = true.
Proof.
  intros Hne H. unfold is_plain, is_word, free_of.
  destruct w as [|c w]; [congruence|]. clear Hne.
  apply andb_true_iff. split; apply forallb_forall; intros x Hx;
    rewrite Forall_forall in H; apply list_elem_of_In in Hx;
    pose proof (digit_plain x (H x Hx)) as P;
    apply andb_true_iff in P; tauto.
Qed.

Lemma fmt_02d_plain n : 0 <= n <= 99 -> is_plain (fmt_02d n) = true.
Proof.
  intros H. apply digits_plain; [discriminate|]. unfold fmt_02d.
  repeat constructor; Z.div_mod_to_equations; lia.
Qed.

Lemma fmt_04d_plain n : 0 <= n <= 9999 -> is_plain (fmt_04d n) = true.
Proof.
  intros H. apply digits_plain; [discriminate|]. unfold fmt_04d.
  repeat constructor; Z.div_mod_to_equations; lia.
Qed.

Lemma day_digits_plain d : 1 <= d <= 31 -> is_plain (day_digits d) = true.
Proof.
  intros H. unfold day_digits. destruct (Z.ltb_spec d 10).
  - apply digits_plain; [discriminate|]. repeat constructor; lia.
  - apply fmt_02d_plain. lia.
Qed.

Lemma nth_plain (names : list str) i :
  forallb is_plain names = true -> 0 <= i < Z.of_nat (length names) ->
  is_plain (nth (Z.to_nat i) names []) = true.
Proof.
  intros H Hi. rewrite forallb_forall in H. apply H, nth_In. lia.
Qed.

Lemma fmt_2d_pad d :
  1 <= d <= 31 -> exists pad, (pad = [] \/ pad = [32]) /\ fmt_2d d = pad ++ day_digits d.
Proof.
  intros H. unfold fmt_2d, day_digits. destruct (d <? 10).
  - exists [32]. auto.
  - exists []. auto.
Qed.

Lemma ctime_in_range_layout dt : in_range dt -> ctime_layout (ctime dt).
Proof.
  intros (Hy & Hm & Hd & Hh & Hmi & Hs).
  assert (Hw : 0 <= weekday dt < 7) by (unfold weekday; apply Z.mod_pos_bound; lia).
  exists (weekday dt), (dt_month dt), (dt_day dt), (dt_hour dt), (dt_minute dt),
    (dt_second dt), (dt_year dt).
  split; [repeat split; lia|].
  destruct (fmt_2d_pad (dt_day dt) Hd) as (pad & Hpad & Epad).
  assert (E : ctime dt
              = rendered_date (nth (Z.to_nat (weekday dt)) DAYNAMES [])
                  (nth (Z.to_nat (dt_month dt - 1)) MONTHNAMES [])
                  (day_digits (dt_day dt)) (fmt_02d (dt_hour dt))
                  (fmt_02d (dt_minute dt)) (fmt_02d (dt_second dt))
                  (fmt_04d (dt_year dt)) pad).
  { unfold ctime, rendered_date. rewrite Epad.
    repeat (rewrite <- ?app_assoc; simpl). reflexivity. }
  rewrite E.
  assert (P1 : is_plain (nth (Z.to_nat (weekday dt)) DAYNAMES []) = true)
    by (apply nth_plain; [reflexivity | simpl; lia]).
  assert (P2 : is_plain (nth (Z.to_nat (dt_month dt - 1)) MONTHNAMES []) = true)
    by (apply nth_plain; [reflexivity | simpl; lia]).
  pose proof (day_digits_plain _ Hd) as P3.
  assert (P4 : is_plain (fmt_02d (dt_hour dt)) = true) by (apply fmt_02d_plain; lia).
  assert (P5 : is_plain (fmt_02d (dt_minute dt)) = true) by (apply fmt_02d_plain; lia).
  assert (P6 : is_plain (fmt_02d (dt_second dt)) = true) by (apply fmt_02d_plain; lia).
  assert (P7 : is_plain (fmt_04d (dt_year dt)) = true) by (apply fmt_04d_plain; lia).
  split; [|split; [|split]].
  - now apply rendered_split_ws.
  - now apply rendered_weekday_key.
  - now apply rendered_hour_key.
  - now apply rendered_day_key.
Qed.

(** ** What ingestion appends *)

Lemma rbind_ok {A B} (r : result A) (k : A -> result B) b :
  rbind r k = Ok b -> exists a, r = Ok a /\ k a = Ok b.
Proof. destruct r as [a|e]; [eauto | discriminate]. Qed.

Ltac bind_inv H :=
  let a := fresh "a" in
  let E := fresh "E" in
  apply rbind_ok in H; destruct H as (a & E & H).

Section Ingestion.

Variable utcoffset : Z -> Z.

Local Abbreviation produced := (produced utcoffset).

Lemma load_message_inv used_app conv message conv' :
  load_message utcoffset used_app conv message = Ok conv' ->
  (classify used_app message = Ok None /\ conv' = conv)
  \/ exists m,
       used_app = Some (platform m)
       /\ classify used_app message = Ok (Some (message_type m, content m))
       /\ date_and_author utcoffset used_app message = Ok (time m, author m)
       /\ conv' = add_message conv m.
Proof.
  unfold load_message. intros H. bind_inv H.
  destruct a as [[k c]|]; [|left; split; [assumption | congruence]].
  right. bind_inv H. destruct a as [t au]. bind_inv H.
  injection H as <-.
  destruct used_app as [p|]; [|discriminate]. injection E1 as ->.
  exists (mk_Message t k c au a). simpl. auto.
Qed.

Lemma load_file_messages_inv used_app ms : forall conv conv',
  load_file_messages utcoffset used_app conv ms = Ok conv' ->
  exists new, Forall produced new /\ conv' = foldl add_message conv new.
Proof.
  induction ms as [|message ms IH]; intros conv conv' H; simpl in H.
  - injection H as <-. now exists [].
  - bind_inv H. apply IH in H. destruct H as (new & Hnew & ->).
    apply load_message_inv in E. destruct E as [[_ ->] | (m & -> & Hc & Hd & ->)].
    + now exists new.
    + exists (m :: new). split; [|reflexivity].
      constructor; [|assumption]. now exists message.
Qed.

Lemma load_files_inv files : forall used_app conv conv',
  load_files utcoffset used_app conv files = Ok conv' ->
  exists new, Forall produced new /\ conv' = foldl add_message conv new.
Proof.
  induction files as [|f files IH]; intros used_app conv conv' H; simpl in H.
  - injection H as <-. now exists [].
  - do 4 bind_inv H. apply IH in H. destruct H as (new2 & H2 & ->).
    apply load_file_messages_inv in E2. destruct E2 as (new1 & H1 & ->).
    exists (new1 ++ new2). split.
    + now apply Forall_app.
    + now rewrite foldl_app.
Qed.

Lemma foldl_add_message conv new :
  messages (foldl add_message conv new) = messages conv ++ new.
Proof.
  revert conv. induction new as [|m new IH]; intros conv; simpl.
  - now rewrite app_nil_r.
  - rewrite IH. simpl. now rewrite <- app_assoc.
Qed.

(** Everything [load_messages] leaves in a fresh conversation was built by
    the loop body, and nothing but the message list has changed. *)
Lemma load_messages_inv dir path fb dc conv' :
  load_messages utcoffset dir (Conversation_init path fb dc) = Ok conv' ->
  Forall produced (messages conv')
  /\ conv' = foldl add_message (Conversation_init path fb dc) (messages conv').
Proof.
  unfold load_messages. intros H. apply load_files_inv in H.
  destruct H as (new & Hnew & ->). rewrite foldl_add_message. simpl. auto.
Qed.

Lemma produced_layout m : produced m -> ctime_layout (time m).
Proof.
  intros (message & _ & H). unfold date_and_author in H. simpl in H.
  destruct (platform m).
  - do 6 bind_inv H. injection H as <- _.
    apply ctime_in_range_layout.
    unfold fromtimestamp in E1. do 3 bind_inv E1.
    eapply of_wall_seconds_in_range, E1.
  - do 5 bind_inv H. do 2 bind_inv H. injection H as <- _.
    apply ctime_in_range_layout.
    unfold astimezone in E3. do 2 bind_inv E3.
    eapply of_wall_seconds_in_range, E3.
Qed.

End Ingestion.

(** ** The aggregation of message lengths *)

Lemma is_str_eq_JStr p a : is_str_eq p (JStr a) = bool_decide (a = p).
Proof. reflexivity. Qed.

Lemma bump_lookup (d : gmap (list Z) nat) k p :
  bump d k !! p = if decide (k = p) then Some (S (default 0%nat (d !! k))) else d !! p.
Proof.
  unfold bump. destruct (d !! k) as [n|] eqn:E.
  - rewrite E. rewrite lookup_insert. destruct (decide (k = p)); reflexivity.
  - rewrite lookup_insert_eq. rewrite lookup_insert. destruct (decide (k = p)).
    + reflexivity.
    + now rewrite lookup_insert_ne.
Qed.

Lemma analyze_one_ok count len m count' len' :
  analyze_one (count, len) m = Ok (count', len') ->
  exists a samples, author m = JStr a /\ len !! a = Some samples
    /\ count' = bump count a
    /\ len' = <[a := samples ++ [length (content m)]]> len.
Proof.
  unfold analyze_one. destruct (author m) as [| | |a| |]; try discriminate.
  destruct (len !! a) as [samples|] eqn:E; [|discriminate].
  intros [= <- <-]. eauto 6.
Qed.

Lemma analyze_one_listed count len m :
  listed len m -> exists samples a,
    author m = JStr a /\ len !! a = Some samples
    /\ analyze_one (count, len) m
       = Ok (bump count a, <[a := samples ++ [length (content m)]]> len).
Proof.
  intros (a & Ha & [samples Hs]). exists samples, a.
  unfold analyze_one. now rewrite Ha, Hs.
Qed.

Lemma analyze_one_unlisted count len m e :
  ~ listed len m -> analyze_one (count, len) m = Ok e -> False.
Proof.
  intros Hn H. destruct e as [count' len'].
  apply analyze_one_ok in H. destruct H as (a & samples & Ha & Hs & _).
  apply Hn. exists a. split; [assumption|]. now rewrite Hs.
Qed.

Lemma listed_insert len a samples m :
  is_Some (len !! a) -> listed (<[a := samples]> len) m <-> listed len m.
Proof.
  intros Ha. unfold listed. split; intros (b & Hb & Hs); exists b; (split; [assumption|]).
  - destruct (decide (a = b)) as [<- | Hne]; [assumption|].
    now rewrite lookup_insert_ne in Hs.
  - destruct (decide (a = b)) as [<- | Hne].
    + rewrite lookup_insert_eq. eauto.
    + now rewrite lookup_insert_ne.
Qed.

Lemma analyze_loop_listed ms : forall count len,
  Forall (listed len) ms ->
  exists count' len',
    analyze_loop (count, len) ms = Ok (count', len')
    /\ (forall p, len' !! p = (fun l => l ++ samples_of p ms) <$> len !! p)
    /\ (forall p, count' !! p
                  = match List.filter (fun m => is_str_eq p (author m)) ms with
                    | [] => count !! p
                    | l => Some (default 0%nat (count !! p) + length l)%nat
                    end).
Proof.
  induction ms as [|m ms IH]; intros count len H.
  - exists count, len. split; [reflexivity|]. split; [|reflexivity].
    intros p. unfold samples_of. simpl. destruct (len !! p); simpl; [|reflexivity].
    now rewrite app_nil_r.
  - apply Forall_cons in H. destruct H as [Hm Hms].
    destruct (analyze_one_listed count len m Hm) as (samples & a & Ha & Hs & E).
    assert (Hms' : Forall (listed (<[a := samples ++ [length (content m)]]> len)) ms).
    { eapply Forall_impl; [exact Hms|]. intros x Hx. apply listed_insert; eauto. }
    destruct (IH (bump count a) _ Hms') as (count' & len' & E' & Hlen & Hcount).
    exists count', len'. split; [cbn [analyze_loop]; rewrite E; exact E'|]. split.
    + intros p. rewrite Hlen. unfold samples_of. simpl. rewrite Ha, is_str_eq_JStr.
      destruct (decide (a = p)) as [<- | Hne].
      * rewrite lookup_insert_eq, Hs, bool_decide_eq_true_2 by reflexivity.
        simpl. now rewrite <- app_assoc.
      * rewrite lookup_insert_ne, bool_decide_eq_false_2 by assumption. reflexivity.
    + intros p. rewrite Hcount. simpl. rewrite Ha, is_str_eq_JStr, bump_lookup.
      destruct (decide (a = p)) as [<- | Hne].
      * rewrite bool_decide_eq_true_2 by reflexivity.
        destruct (List.filter _ ms); simpl; f_equal; lia.
      * rewrite bool_decide_eq_false_2 by assumption. reflexivity.
Qed.

Lemma analyze_loop_fails ms1 : forall count len m ms2,
  Forall (listed len) ms1 -> ~ listed len m ->
  exists e, analyze_loop (count, len) (ms1 ++ m :: ms2) = Raise e
    /\ (forall a, author m = JStr a -> e = KeyError).
Proof.
  induction ms1 as [|m1 ms1 IH]; intros count len m ms2 H1 Hm.
  - cbn [analyze_loop app]. destruct (analyze_one (count, len) m) as [t|e] eqn:E.
    + exfalso. eapply analyze_one_unlisted; eauto.
    + exists e. split; [reflexivity|]. intros a Ha.
      unfold analyze_one in E. rewrite Ha in E.
      destruct (len !! a); [discriminate | congruence].
  - apply Forall_cons in H1. destruct H1 as [Hm1 Hms1].
    destruct (analyze_one_listed count len m1 Hm1) as (samples & a & Ha & Hs & E).
    cbn [analyze_loop app]. rewrite E. cbn [rbind]. apply IH.
    + eapply Forall_impl; [exact Hms1|]. intros x Hx. apply listed_insert; eauto.
    + rewrite listed_insert; eauto.
Qed.

(** The sample table of a new conversation has exactly the participants as
    its keys, each with no sample yet. *)
Lemma init_table_lookup (ps : list str) p :
  (list_to_map (map (fun participant => (participant, @nil nat)) ps)
     : gmap (list Z) (list nat)) !! p
  = if bool_decide (p ∈ ps) then Some [] else None.
Proof.
  induction ps as [|q ps IH]; simpl.
  - rewrite lookup_empty. reflexivity.
  - rewrite lookup_insert. destruct (decide (q = p)) as [<- | Hne].
    + rewrite bool_decide_eq_true_2; [reflexivity | constructor].
    + rewrite IH. destruct (bool_decide (p ∈ ps)) eqn:E.
      * apply bool_decide_eq_true in E.
        rewrite bool_decide_eq_true_2; [reflexivity | now constructor].
      * apply bool_decide_eq_false in E.
        rewrite bool_decide_eq_false_2; [reflexivity|].
        intros Hin. apply elem_of_cons in Hin. destruct Hin; congruence.
Qed.

Lemma listed_init ps m :
  listed (list_to_map (map (fun participant => (participant, @nil nat)) ps)) m
  <-> author_known ps m.
Proof.
  unfold listed, author_known. split; intros (a & Ha & H); exists a; (split; [assumption|]).
  - rewrite init_table_lookup in H. destruct (bool_decide (a ∈ ps)) eqn:E.
    + now apply bool_decide_eq_true in E.
    + now destruct H.
  - rewrite init_table_lookup, bool_decide_eq_true_2 by assumption. eauto.
Qed.

(** A message list splits at its first message that fails a test. *)
Lemma first_failure {A} (P : A -> Prop) (l : list A) :
  (forall x, P x \/ ~ P x) ->
  Forall P l \/ exists l1 x l2, l = l1 ++ x :: l2 /\ Forall P l1 /\ ~ P x.
Proof.
  intros dec. induction l as [|x l IH]; [left; constructor|].
  destruct (dec x) as [Hx | Hx].
  - destruct IH as [H | (l1 & y & l2 & -> & H1 & Hy)].
    + left. now constructor.
    + right. exists (x :: l1), y, l2. repeat split; [now constructor | assumption].
  - right. exists [], x, l. repeat split; [constructor | assumption].
Qed.

Lemma author_known_dec ps m : author_known ps m \/ ~ author_known ps m.
Proof.
  unfold author_known. destruct (author m) as [| | |a| |];
    try (right; intros (x & Hx & _); discriminate).
  destruct (decide (a ∈ ps)) as [H | H].
  - left. eauto.
  - right. intros (x & [= <-] & Hx). contradiction.
Qed.

Lemma foldl_add_message_eq conv new :
  foldl add_message conv new
  = mk_Conversation (participants_fb conv) (participants_discord conv) (path conv)
      (messages conv ++ new)
      (weekday_frequency conv) (hour_frequency conv) (day_frequency conv)
      (emoji_frequency conv)
      (participants_message_count conv) (participants_message_length conv).
Proof.
  revert conv. induction new as [|m new IH]; intros conv.
  - simpl. rewrite app_nil_r. now destruct conv.
  - simpl. rewrite IH. simpl. now rewrite <- app_assoc.
Qed.

Lemma analyze_ingested pth fb dc ms :
  analyze_message_length (ingested pth fb dc ms)
  = let* '(count, len) :=
      analyze_loop (∅, list_to_map (map (fun participant => (participant, []))
                                       (fb ++ dc))) ms in
    Ok (mk_Conversation fb dc pth ms ∅ ∅ ∅ ∅ count len).
Proof.
  unfold ingested. rewrite foldl_add_message_eq. reflexivity.
Qed.

(** C10: the sample table is created with the participants of the two
    lists as its only keys, and [analyze_message_length] returns exactly when
    every ingested message's author is a string among them; otherwise it
    stops at the first message whose author is not, with [KeyError] when that
    author is a string outside both lists. *)
Theorem analyze_message_length_needs_known_authors path fb dc ms :
  (forall p, is_Some (participants_message_length (Conversation_init path fb dc) !! p)
             <-> p ∈ fb ++ dc)
  /\ (is_ok (analyze_message_length (ingested path fb dc ms)) = true
      <-> Forall (author_known (fb ++ dc)) ms)
  /\ (forall ms1 m ms2 a,
        ms = ms1 ++ m :: ms2 -> Forall (author_known (fb ++ dc)) ms1 ->
        author m = JStr a -> a ∉ fb ++ dc ->
        analyze_message_length (ingested path fb dc ms) = Raise KeyError).
Proof.
  split; [|split].
  - intros p. simpl. rewrite init_table_lookup.
    destruct (bool_decide (p ∈ fb ++ dc)) eqn:E.
    + apply bool_decide_eq_true in E. split; eauto.
    + apply bool_decide_eq_false in E. split; [intros []; discriminate | contradiction].
  - rewrite analyze_ingested.
    destruct (first_failure (author_known (fb ++ dc)) ms (author_known_dec _))
      as [H | (ms1 & m & ms2 & -> & H1 & Hm)].
    + split; [auto|]. intros _.
      destruct (analyze_loop_listed ms ∅
                  (list_to_map (map (fun participant => (participant, [])) (fb ++ dc))))
        as (count' & len' & -> & _).
      { eapply Forall_impl; [exact H|]. intros x Hx. now apply listed_init. }
      reflexivity.
    + destruct (analyze_loop_fails ms1 ∅
                  (list_to_map (map (fun participant => (participant, [])) (fb ++ dc)))
                  m ms2) as (e & -> & _).
      { eapply Forall_impl; [exact H1|]. intros x Hx. now apply listed_init. }
      { now rewrite listed_init. }
      split; [discriminate|]. intros H. exfalso. apply Hm.
      apply Forall_app in H. destruct H as [_ H]. now apply Forall_cons in H.
  - intros ms1 m ms2 a -> H1 Ha Hn. rewrite analyze_ingested.
    destruct (analyze_loop_fails ms1 ∅
                (list_to_map (map (fun participant => (participant, [])) (fb ++ dc)))
                m ms2) as (e & -> & He).
    { eapply Forall_impl; [exact H1|]. intros x Hx. now apply listed_init. }
    { rewrite listed_init. intros (b & Hb & Hin). congruence. }
    now rewrite (He a Ha).
Qed.

(** ** The dropped-message policy *)

Lemma no_payload_contains d k :
  Forall (fun k => dict_lookup d k = None) payload_fields ->
  In k payload_fields -> py_contains k (JDict d) = Ok false.
Proof.
  intros F Hk. rewrite Forall_forall in F.
  unfold py_contains. rewrite (F k) by now apply list_elem_of_In.
  rewrite bool_decide_eq_false_2; [reflexivity | intros []; discriminate].
Qed.

Ltac no_payload F :=
  rewrite !(no_payload_contains _ _ F)
    by (unfold payload_fields; cbn [map In]; auto 10);
  cbn [rbind].

(** A message object without payload whose [is_unsent] is present and false
    is skipped. *)
Lemma load_message_flag_false utcoffset used_app conv d u :
  Forall (fun k => dict_lookup d k = None) payload_fields ->
  dict_lookup d (lit "is_unsent") = Some u -> truthy u = false ->
  load_message utcoffset used_app conv (JDict d) = Ok conv.
Proof.
  intros F Hu Ht. unfold load_message, classify. no_payload F.
  unfold py_getitem. rewrite Hu. cbn [rbind]. now rewrite Ht.
Qed.

(** Without the [is_unsent] key the same object ends the run. *)
Lemma load_message_flag_absent utcoffset used_app conv d :
  Forall (fun k => dict_lookup d k = None) payload_fields ->
  dict_lookup d (lit "is_unsent") = None ->
  load_message utcoffset used_app conv (JDict d) = Raise KeyError.
Proof.
  intros F Hu. unfold load_message, classify. no_payload F.
  unfold py_getitem. now rewrite Hu.
Qed.

(** C1: a Facebook export whose only message has a sender and a time stamp
    but no payload field and no [is_unsent] key is not skipped: reading the
    absent key raises [KeyError] and ingestion fails, on every host. *)
Theorem unflagged_message_raises_KeyError :
  forall utcoffset,
    load_messages utcoffset unflagged_dir (Conversation_init (lit "kiki") [lit "A"] [])
    = Raise KeyError.
Proof. intros utcoffset. reflexivity. Qed.

Example flagged_message_is_dropped utcoffset :
  load_messages utcoffset flagged_dir (Conversation_init (lit "kiki") [lit "A"] [])
  = Ok (Conversation_init (lit "kiki") [lit "A"] []).
Proof. reflexivity. Qed.

(** ** Format detection *)

(** C2: a root object with neither ["channel"] nor ["participants"] raises
    no format error.  After a Facebook file its messages are ingested as
    Facebook messages, because [used_app] keeps its previous value; and as
    the first file it passes without any error when all its messages are
    skipped. *)
Theorem unknown_format_is_not_rejected :
  (exists conv,
     load_messages utc_host stale_format_dir (Conversation_init (lit "kiki") [lit "A"] [])
     = Ok conv
     /\ map (fun m => (platform m, message_type m, author m)) (messages conv)
        = [(facebook, video, JStr (lit "A"))])
  /\ load_messages utc_host only_dropped_dir (Conversation_init (lit "kiki") [lit "A"] [])
     = Ok (Conversation_init (lit "kiki") [lit "A"] []).
Proof.
  split; [|reflexivity].
  eexists. split; [vm_compute; reflexivity | reflexivity].
Qed.

(** As the first file, with a message that is kept, the run ends on the
    unbound variable. *)
Example unknown_format_first_file utcoffset :
  load_messages utcoffset [(lit "message_1.json", no_format_file)]
    (Conversation_init (lit "kiki") [lit "A"] [])
  = Raise UnboundLocalError.
Proof. reflexivity. Qed.

(** ** Discord time stamps *)

(** C3: on a host showing UTC, the Discord time stamp
    [2021-03-04T12:34:56.789+02:00] is stored as 12:34:56, the wall-clock
    reading of the source string: [split(".")[0]] removes the offset together
    with the fraction.  Removing only the fraction and converting the instant
    to the host's zone gives 10:34:56. *)
Theorem discord_time_loses_offset :
  (exists conv,
     load_messages utc_host offset_dir (Conversation_init (lit "kiki") [] [lit "Bobby"])
     = Ok conv
     /\ map time (messages conv) = [lit "Thu Mar  4 12:34:56 2021"])
  /\ spec_discord_time utc_host (lit "2021-03-04T12:34:56.789+02:00")
     = Ok (lit "Thu Mar  4 10:34:56 2021").
Proof.
  split; [|vm_compute; reflexivity].
  eexists. split; [vm_compute; reflexivity | reflexivity].
Qed.

(** A time stamp without a fraction keeps its offset, and the instant is
    converted. *)
Example discord_time_without_fraction :
  date_and_author utc_host (Some discord)
    (discord_message (lit "bob") (lit "2021-03-04T12:34:56+02:00") [])
  = Ok (lit "Thu Mar  4 10:34:56 2021", JStr (lit "bob")).
Proof. vm_compute. reflexivity. Qed.

(** ** Authors *)

(** The Facebook branch stores the repaired sender name. *)
Lemma facebook_author_repaired utcoffset m :
  produced utcoffset m -> platform m = facebook ->
  exists message sender_name s,
    py_getitem message (lit "sender_name") = Ok (JStr sender_name)
    /\ repair_latin1 sender_name = Ok s
    /\ author m = JStr s.
Proof.
  intros (message & _ & H) Hp. rewrite Hp in H. unfold date_and_author in H.
  cbn [read_used_app rbind] in H. do 6 bind_inv H. injection H as _ <-.
  destruct a2; try discriminate. injection E3 as ->.
  exists message, a3, a4. auto.
Qed.

(** The Discord branch stores the [name] field as it is. *)
Lemma discord_author_raw utcoffset m :
  produced utcoffset m -> platform m = discord ->
  exists message au,
    py_getitem message (lit "author") = Ok au
    /\ py_getitem au (lit "name") = Ok (author m).
Proof.
  intros (message & _ & H) Hp. rewrite Hp in H. unfold date_and_author in H.
  cbn [read_used_app rbind] in H. do 7 bind_inv H. injection H as _ <-.
  exists message, a4. auto.
Qed.

(** C5: the author of a Discord message is stored without the UTF-16 round
    trip that its content and the metadata nicknames go through.  A name that
    is a lone high surrogate is stored as it is, while the round trip rejects
    it; a name holding the two halves of a pair is stored as two code points,
    while the round trip joins them into U+1F600. *)
Theorem discord_author_not_repaired :
  (exists conv,
     load_messages utc_host lone_surrogate_dir
       (Conversation_init (lit "kiki") [] [lit "Bobby"]) = Ok conv
     /\ map author (messages conv) = [JStr [55357]])
  /\ repair_utf16 [55357] = Raise UnicodeDecodeError
  /\ date_and_author utc_host (Some discord)
       (discord_message [55357; 56832] (lit "2021-03-04T12:34:56") [])
     = Ok (lit "Thu Mar  4 12:34:56 2021", JStr [55357; 56832])
  /\ repair_utf16 [55357; 56832] = Ok [128512].
Proof.
  split; [|split; [|split]]; try (vm_compute; reflexivity).
  eexists. split; [vm_compute; reflexivity | reflexivity].
Qed.

(** ** The order of the files *)

(** C9: under the path [./kiki] the twelve files are opened in the plain
    lexicographic order of their names, [message_10.json] before
    [message_2.json]: the key pads the whole path to 20 characters, and a
    path of five characters or more leaves nothing to pad. *)
Theorem long_path_breaks_numeric_order :
  map fst (file_list (lit "./kiki") twelve_files)
  = map (fun n => lit "./kiki/message_" ++ lit n ++ lit ".json")
      ["1"; "10"; "11"; "12"; "2"; "3"; "4"; "5"; "6"; "7"; "8"; "9"]%string
  /\ exists conv,
       load_messages utc_host twelve_files
         (Conversation_init (lit "./kiki") [lit "A"] []) = Ok conv
       /\ map content (messages conv)
          = map lit ["1"; "10"; "11"; "12"; "2"; "3"; "4"; "5"; "6"; "7"; "8"; "9"]%string.
Proof.
  split; [vm_compute; reflexivity|].
  eexists. split; [vm_compute; reflexivity | reflexivity].
Qed.

(** Under the four-letter path [kiki] the same files are opened in numeric
    order. *)
Example short_path_numeric_order :
  map fst (file_list (lit "kiki") (rev twelve_files))
  = map (fun n => lit "kiki/message_" ++ lit n ++ lit ".json")
      ["1"; "2"; "3"; "4"; "5"; "6"; "7"; "8"; "9"; "10"; "11"; "12"]%string.
Proof. vm_compute. reflexivity. Qed.

(** ** Classification *)

Ltac step_check H :=
  match type of H with
  | rbind (py_contains ?k ?m) _ = _ =>
      let E := fresh "C" in
      destruct (py_contains k m) as [[|]|] eqn:E; cbn [rbind] in H;
      [ | | discriminate]
  end.

Lemma classify_first_match used_app message r :
  classify used_app message = Ok r -> fst <$> r = first_match message.
Proof.
  intros H. unfold classify in H. cbv zeta in H.
  unfold first_match, payload_checks, has_field. cbn [List.find fst].
  step_check H.
  { do 4 bind_inv H. now injection H as <-. }
  step_check H; [now injection H as <-|].
  step_check H; [now injection H as <-|].
  step_check H; [now injection H as <-|].
  step_check H; [now injection H as <-|].
  step_check H; [now injection H as <-|].
  step_check H; [now injection H as <-|].
  bind_inv H. rewrite E. destruct (truthy a); now injection H as <-.
Qed.

(** Only a text message carries content. *)
Lemma classify_content used_app message k c :
  classify used_app message = Ok (Some (k, c)) -> k = text \/ c = [].
Proof.
  intros H. unfold classify in H. cbv zeta in H.
  step_check H.
  { do 4 bind_inv H. injection H as <- _. now left. }
  do 6 (step_check H; [injection H as _ <-; now right|]).
  bind_inv H. destruct (truthy a); [injection H as _ <-; now right | discriminate].
Qed.

(** A value on which one membership test raises is no container: every
    membership test and every subscript with a string raises [TypeError]. *)
Lemma scalar_message k message e :
  py_contains k message = Raise e ->
  forall k', py_contains k' message = Raise TypeError
             /\ py_getitem message k' = Raise TypeError.
Proof. destruct message; try discriminate; intros _ k'; split; reflexivity. Qed.

Ltac next_check :=
  match goal with
  | |- context [py_contains ?k ?m] =>
      let E := fresh "C" in
      destruct (py_contains k m) as [[|]|] eqn:E; cbn [rbind];
      [ | | pose proof (proj1 (scalar_message _ _ _ E (lit "content")));
            congruence ]
  end.

(** Without a content field the chain returns, and with the kind of the
    first test that holds. *)
Lemma classify_of_first_match used_app message k :
  first_match message = Some k -> k <> text ->
  classify used_app message = Ok (Some (k, [])).
Proof.
  intros H Hk. unfold first_match, payload_checks, has_field in H.
  cbn [List.find fst] in H. unfold classify. cbv zeta.
  destruct (py_contains (lit "content") message) as [[|]|e] eqn:C0; cbn [rbind].
  - congruence.
  - do 6 (next_check; [congruence|]).
    destruct (py_getitem message (lit "is_unsent")) as [u|]; [|discriminate].
    cbn [rbind]. destruct (truthy u); [congruence | discriminate].
  - pose proof (scalar_message _ _ _ C0) as S.
    rewrite !(proj1 (S _)), (proj2 (S _)) in H. discriminate.
Qed.

(** When no test holds the outcome is that of reading [is_unsent]. *)
Lemma classify_no_match used_app message :
  first_match message = None ->
  classify used_app message
  = match py_getitem message (lit "is_unsent") with
    | Ok _ => Ok None
    | Raise e => Raise e
    end.
Proof.
  intros H. unfold first_match, payload_checks, has_field in H.
  cbn [List.find fst] in H. unfold classify. cbv zeta.
  destruct (py_contains (lit "content") message) as [[|]|e] eqn:C0; cbn [rbind].
  - discriminate.
  - do 6 (next_check; [discriminate|]).
    destruct (py_getitem message (lit "is_unsent")) as [u|]; [|reflexivity].
    cbn [rbind]. destruct (truthy u); [discriminate | reflexivity].
  - pose proof (scalar_message _ _ _ C0) as S.
    rewrite (proj2 (S _)). pose proof (proj1 (S (lit "content"))). congruence.
Qed.

(** C7: [classify] evaluates the payload tests in the order text, video,
    photo, sticker, gif, file, audio, with the deleted flag last, and the
    first test that holds decides.  Whatever it returns is the kind of that
    first test; a message object with a content field is classified as text
    whatever else it carries, a videos field included, every Message built
    from it has kind text, and when the content is a string that the repair
    accepts the classification succeeds.  When the first test that holds is
    one of the other seven, [classify] returns that kind with an empty
    content, whatever the platform read so far, and [load_message] appends
    a Message of that kind as soon as date and author can be read.  When no
    test holds the outcome is that of reading [is_unsent]: the message is
    skipped, or the error of the subscript is raised. *)
Theorem classify_first_match_wins used_app message :
  (forall r, classify used_app message = Ok r -> fst <$> r = first_match message)
  /\ (has_field (lit "content") message = true ->
      has_field (lit "videos") message = true ->
      first_match message = Some text
      /\ (forall r, classify used_app message = Ok r -> exists c, r = Some (text, c))
      /\ (forall utcoffset conv conv',
            load_message utcoffset used_app conv message = Ok conv' ->
            exists m, conv' = add_message conv m /\ message_type m = text))
  /\ (forall a raw s,
        used_app = Some a ->
        py_contains (lit "content") message = Ok true ->
        py_getitem message (lit "content") = Ok (JStr raw) ->
        match a with facebook => repair_latin1 raw | discord => repair_utf16 raw end
        = Ok s ->
        classify used_app message = Ok (Some (text, convert_symbols_to_emojis s)))
  /\ (forall k,
        first_match message = Some k -> k <> text ->
        classify used_app message = Ok (Some (k, []))
        /\ (forall utcoffset conv a d au,
              used_app = Some a ->
              date_and_author utcoffset used_app message = Ok (d, au) ->
              load_message utcoffset used_app conv message
              = Ok (add_message conv (mk_Message d k [] au a))))
  /\ (first_match message = None ->
      classify used_app message
      = match py_getitem message (lit "is_unsent") with
        | Ok _ => Ok None
        | Raise e => Raise e
        end).
Proof.
  split; [|split; [|split; [|split]]].
  - intros r. apply classify_first_match.
  - intros Hc _.
    assert (F : first_match message = Some text).
    { unfold first_match, payload_checks. cbn [List.find fst]. now rewrite Hc. }
    split; [exact F|]. split.
    + intros r H. apply classify_first_match in H. rewrite F in H.
      destruct r as [[k c]|]; [|discriminate]. injection H as ->. eauto.
    + intros utcoffset conv conv' H.
      apply load_message_inv in H. destruct H as [[H _] | (m & _ & H & _ & ->)].
      * apply classify_first_match in H. rewrite F in H. discriminate.
      * exists m. split; [reflexivity|].
        apply classify_first_match in H. rewrite F in H. simpl in H. congruence.
  - intros a raw s -> Hc Hg Hr. unfold classify. cbv zeta.
    rewrite Hc. cbn [rbind read_used_app]. rewrite Hg. cbn [rbind as_str].
    destruct a; rewrite Hr; reflexivity.
  - intros k F Hk.
    pose proof (classify_of_first_match used_app message k F Hk) as Hc.
    split; [exact Hc|].
    intros utcoffset conv a d au -> Hd. unfold load_message.
    rewrite Hc. cbn [rbind]. rewrite Hd. reflexivity.
  - apply classify_no_match.
Qed.

(** A caption with a video attached, and a photo with a video attached, read
    from a Facebook export: the first is a text message, the second a video
    although the photo is listed first. *)
Lemma classify_first_match_wins_witness :
  first_match caption_and_video = Some text
  /\ classify (Some facebook) caption_and_video
     = Ok (Some (text, lit "look " ++ [128512]))
  /\ first_match video_and_photo = Some video
  /\ load_message utc_host (Some facebook)
       (Conversation_init (lit "kiki") [lit "A"] []) video_and_photo
     = Ok (add_message (Conversation_init (lit "kiki") [lit "A"] [])
             (mk_Message (lit "Thu Mar  4 12:34:56 2021") video []
                (JStr (lit "A")) facebook)).
Proof.
  pose proof (classify_first_match_wins (Some facebook) caption_and_video)
    as (_ & H & K & _).
  pose proof (classify_first_match_wins (Some facebook) video_and_photo)
    as (_ & _ & _ & V & _).
  split; [|split; [|split]].
  - apply H; reflexivity.
  - apply (K facebook (lit "look :D") (lit "look :D")); reflexivity.
  - reflexivity.
  - apply (V video); [reflexivity | discriminate | reflexivity |].
    vm_compute. reflexivity.
Defined.

(** ** Length samples *)

Lemma photo_dir_loaded :
  load_messages utc_host photo_dir (Conversation_init (lit "kiki") [lit "A"] [])
  = Ok photo_conversation.
Proof. vm_compute. reflexivity. Qed.

(** C6, as stated, fails: one photo sent by A leaves the sample 0 in A's
    list, which the lengths of A's text messages do not contain. *)
Lemma photo_adds_a_length_sample :
  load_messages utc_host photo_dir (Conversation_init (lit "kiki") [lit "A"] [])
  = Ok photo_conversation
  /\ map message_type (messages photo_conversation) = [photo]
  /\ exists conv',
       analyze_message_length photo_conversation = Ok conv'
       /\ participants_message_length conv' !! lit "A" = Some [0%nat]
       /\ text_lengths_of (lit "A") (messages photo_conversation) = []
       /\ participants_message_length conv' !! lit "A"
          <> Some (text_lengths_of (lit "A") (messages photo_conversation)).
Proof.
  split; [exact photo_dir_loaded|]. split; [reflexivity|].
  eexists. split; [vm_compute; reflexivity|].
  split; [vm_compute; reflexivity|]. split; [reflexivity|].
  vm_compute. discriminate.
Qed.

(** C6, amended: when every ingested message's author is among the
    participants, the aggregation returns, and a participant's sample list is
    the list of the content lengths of all of that participant's messages, in
    ingestion order, as many samples as the participant's message count; a
    message that is not text has empty content, so its sample is 0. *)
Theorem length_samples_of_all_messages utcoffset dir pth fb dc conv :
  load_messages utcoffset dir (Conversation_init pth fb dc) = Ok conv ->
  Forall (author_known (fb ++ dc)) (messages conv) ->
  exists conv',
    analyze_message_length conv = Ok conv'
    /\ (forall p, p ∈ fb ++ dc ->
          participants_message_length conv' !! p = Some (samples_of p (messages conv))
          /\ default 0%nat (participants_message_count conv' !! p)
             = length (samples_of p (messages conv)))
    /\ Forall (fun m => message_type m <> text -> content m = []) (messages conv).
Proof.
  intros H K. apply load_messages_inv in H. destruct H as [Hp Hc].
  fold (ingested pth fb dc (messages conv)) in Hc.
  set (ms := messages conv) in *. clearbody ms. subst conv.
  rewrite analyze_ingested.
  destruct (analyze_loop_listed ms ∅
              (list_to_map (map (fun participant => (participant, [])) (fb ++ dc))))
    as (count' & len' & -> & Hlen & Hcount).
  { eapply Forall_impl; [exact K|]. intros x Hx. now apply listed_init. }
  eexists. split; [reflexivity|]. split.
  - intros p Hin. cbn. split.
    + rewrite Hlen, init_table_lookup, bool_decide_eq_true_2 by assumption. reflexivity.
    + rewrite Hcount. unfold samples_of. rewrite length_map.
      destruct (List.filter _ ms); [now rewrite lookup_empty|].
      now rewrite lookup_empty.
  - eapply Forall_impl; [exact Hp|]. intros m (message & Hm & _) Hk.
    apply classify_content in Hm. destruct Hm; [contradiction | assumption].
Qed.

Lemma length_samples_of_all_messages_witness :
  exists conv',
    analyze_message_length photo_conversation = Ok conv'
    /\ (forall p, p ∈ [lit "A"] ++ [] ->
          participants_message_length conv' !! p
          = Some (samples_of p (messages photo_conversation))
          /\ default 0%nat (participants_message_count conv' !! p)
             = length (samples_of p (messages photo_conversation)))
    /\ Forall (fun m => message_type m <> text -> content m = [])
              (messages photo_conversation).
Proof.
  apply (length_samples_of_all_messages utc_host photo_dir (lit "kiki") [lit "A"] []).
  - vm_compute. reflexivity.
  - repeat constructor. exists (lit "A"). split; [reflexivity | constructor].
Defined.

(** ** Time stamps of ingested messages *)

(** C4: the time of every Message that ingestion appends, from either
    platform, splits on whitespace into the weekday abbreviation, the month
    abbreviation, the day of the month without leading zero, HH:MM:SS and
    the four-digit year; and the aggregator's three extractions return the
    weekday, the hour and the "month day year" key made of these parts. *)
Theorem ingested_time_layout utcoffset dir pth fb dc conv :
  load_messages utcoffset dir (Conversation_init pth fb dc) = Ok conv ->
  Forall (fun m => ctime_layout (time m)) (messages conv).
Proof.
  intros H. apply load_messages_inv in H. destruct H as [Hp _].
  eapply Forall_impl; [exact Hp|]. intros m. apply produced_layout.
Qed.

Lemma ingested_time_layout_witness :
  Forall (fun m => ctime_layout (time m)) (messages mixed_conversation).
Proof.
  apply (ingested_time_layout utc_host mixed_dir (lit "kiki") [lit "A"] [lit "Bobby"]).
  vm_compute. reflexivity.
Defined.

(** The two strings of that conversation under the aggregator's splits. *)
Example mixed_conversation_keys :
  map (fun m => (split_ws (time m), weekday_key (time m),
                 hour_key (time m), day_key (time m)))
      (messages mixed_conversation)
  = [ (map lit ["Sat"; "Dec"; "25"; "23:59:58"; "2021"]%string,
       Ok (lit "Sat"), Ok (lit "23"), Ok (lit "Dec 25 2021"));
      (map lit ["Thu"; "Mar"; "4"; "12:34:56"; "2021"]%string,
       Ok (lit "Thu"), Ok (lit "12"), Ok (lit "Mar 4 2021")) ].
Proof. vm_compute. reflexivity. Qed.

(** The keys end up in the histograms. *)
Example mixed_conversation_day_frequency :
  exists conv,
    get_day_frequency mixed_conversation = Ok conv
    /\ day_frequency conv !! lit "Mar 4 2021" = Some 1%nat
    /\ day_frequency conv !! lit "Dec 25 2021" = Some 1%nat.
Proof. eexists. split; [vm_compute; reflexivity|]. split; vm_compute; reflexivity. Qed.

(** ** The example of C10: a Discord name that is no nickname *)

Example discord_name_is_not_nickname :
  metadata_participants_discord
    (discord_export [discord_message (lit "bob") (lit "2021-03-04T12:34:56") []])
  = Ok [lit "Bobby"]
  /\ exists conv,
       load_messages utc_host offset_dir (Conversation_init (lit "kiki") [] [lit "Bobby"])
       = Ok conv
       /\ map author (messages conv) = [JStr (lit "bob")]
       /\ analyze_message_length conv = Raise KeyError.
Proof.
  split; [vm_compute; reflexivity|].
  eexists. split; [vm_compute; reflexivity|]. split; vm_compute; reflexivity.
Qed.

(** ** Text repair: what the two round trips accept and return *)

Lemma decode_utf8_cons b0 r0 :
  decode_utf8 (b0 :: r0)
  = if b0 <? 128 then let* s := decode_utf8 r0 in Ok (b0 :: s)
    else if (194 <=? b0) && (b0 <=? 223) then
      match r0 with
      | b1 :: r1 =>
          if is_cont b1
          then let* s := decode_utf8 r1 in
               Ok (((b0 - 192) * 64 + (b1 - 128)) :: s)
          else Raise UnicodeDecodeError
      | _ => Raise UnicodeDecodeError
      end
    else if (224 <=? b0) && (b0 <=? 239) then
      match r0 with
      | b1 :: b2 :: r2 =>
          let lo := if b0 =? 224 then 160 else 128 in
          let hi := if b0 =? 237 then 159 else 191 in
          if (lo <=? b1) && (b1 <=? hi) && is_cont b2
          then let* s := decode_utf8 r2 in
               Ok (((b0 - 224) * 4096 + (b1 - 128) * 64 + (b2 - 128)) :: s)
          else Raise UnicodeDecodeError
      | _ => Raise UnicodeDecodeError
      end
    else if (240 <=? b0) && (b0 <=? 244) then
      match r0 with
      | b1 :: b2 :: b3 :: r3 =>
          let lo := if b0 =? 240 then 144 else 128 in
          let hi := if b0 =? 244 then 143 else 191 in
          if (lo <=? b1) && (b1 <=? hi) && is_cont b2 && is_cont b3
          then let* s := decode_utf8 r3 in
               Ok (((b0 - 240) * 262144 + (b1 - 128) * 4096
                    + (b2 - 128) * 64 + (b3 - 128)) :: s)
          else Raise UnicodeDecodeError
      | _ => Raise UnicodeDecodeError
      end
    else Raise UnicodeDecodeError.
Proof. reflexivity. Qed.

(** Decide the comparisons of the goal, dropping the impossible branches. *)
Ltac arith := solve [Z.div_mod_to_equations; lia].

Ltac settle_tests :=
  repeat (match goal with
          | |- context [Z.eqb ?a ?b] =>
              destruct (Z.eqb_spec a b); try (exfalso; arith)
          | |- context [Z.ltb ?a ?b] =>
              destruct (Z.ltb_spec a b); try (exfalso; arith)
          | |- context [Z.leb ?a ?b] =>
              destruct (Z.leb_spec a b); try (exfalso; arith)
          end; cbn [andb orb negb]).

Lemma is_scalar_bounds c :
  is_scalar c = true -> 0 <= c <= 1114111 /\ (c < 55296 \/ 57343 < c).
Proof.
  unfold is_scalar. intros H.
  apply andb_true_iff in H. destruct H as [H Hs].
  apply andb_true_iff in H. destruct H as [H0 H1].
  apply negb_true_iff, andb_false_iff in Hs. lia.
Qed.

Lemma decode_utf8_encode_char c rest :
  is_scalar c = true ->
  decode_utf8 (encode_utf8_char c ++ rest)
  = let* s := decode_utf8 rest in Ok (c :: s).
Proof.
  intros H. apply is_scalar_bounds in H. destruct H as [Hc Hs].
  unfold encode_utf8_char.
  destruct (Z.ltb_spec c 128); [|destruct (Z.ltb_spec c 2048);
                                  [|destruct (Z.ltb_spec c 65536)]];
    cbn [app]; rewrite decode_utf8_cons; unfold is_cont; cbv zeta;
    settle_tests;
    destruct (decode_utf8 rest); cbn [rbind]; try reflexivity;
    do 2 f_equal; arith.
Qed.

Lemma encode_latin1_bytes bs :
  Forall (fun b => 0 <= b <= 255) bs -> encode_latin1 bs = Ok bs.
Proof.
  induction 1 as [|b bs Hb _ IH]; [reflexivity|].
  simpl. rewrite IH.
  destruct (Z.leb_spec 0 b); [|lia]. destruct (Z.leb_spec b 255); [|lia]. reflexivity.
Qed.

Lemma encode_latin1_ok s bs :
  encode_latin1 s = Ok bs -> bs = s /\ Forall (fun b => 0 <= b <= 255) s.
Proof.
  revert bs. induction s as [|c s IH]; intros bs H; simpl in H.
  - injection H as <-. split; constructor.
  - destruct (Z.leb_spec 0 c); [|discriminate].
    destruct (Z.leb_spec c 255); [|discriminate]. simpl in H.
    bind_inv H. injection H as <-. destruct (IH a E) as [-> F].
    split; [reflexivity | constructor; [lia | assumption]].
Qed.

Lemma encode_utf8_char_bytes c :
  is_scalar c = true -> Forall (fun b => 0 <= b <= 255) (encode_utf8_char c).
Proof.
  intros H. apply is_scalar_bounds in H. destruct H as [Hc Hs].
  unfold encode_utf8_char.
  destruct (Z.ltb_spec c 128); [|destruct (Z.ltb_spec c 2048);
                                  [|destruct (Z.ltb_spec c 65536)]];
    repeat constructor; arith.
Qed.

Lemma decode_utf8_encode s :
  forallb is_scalar s = true -> decode_utf8 (encode_utf8 s) = Ok s.
Proof.
  induction s as [|c s IH]; [reflexivity|].
  simpl. intros H. apply andb_true_iff in H. destruct H as [Hc Hs].
  rewrite decode_utf8_encode_char by assumption. now rewrite IH.
Qed.

(** Each successful step of the decoder read the encoding of the character
    it returned. *)
Lemma decode_utf8_inv n : forall bs s,
  (length bs <= n)%nat -> Forall (fun b => 0 <= b <= 255) bs ->
  decode_utf8 bs = Ok s ->
  forallb is_scalar s = true /\ encode_utf8 s = bs.
Proof.
  induction n as [|n IH]; intros bs s Hn Hb H.
  - destruct bs; [|simpl in Hn; lia]. injection H as <-. now split.
  - destruct bs as [|b0 r0]; [injection H as <-; now split|].
    rewrite decode_utf8_cons in H. simpl in Hn.
    apply Forall_cons in Hb. destruct Hb as [Hb0 Hr0].
    destruct (Z.ltb_spec b0 128).
    { bind_inv H. injection H as <-.
      destruct (IH r0 a ltac:(lia) Hr0 E) as [Hs He]. split.
      - simpl. rewrite Hs, andb_true_r. unfold is_scalar. settle_tests. reflexivity.
      - change (encode_utf8_char b0 ++ encode_utf8 a = b0 :: r0).
        rewrite He. unfold encode_utf8_char. settle_tests. reflexivity. }
    destruct ((194 <=? b0) && (b0 <=? 223)) eqn:T2.
    { apply andb_true_iff in T2. destruct T2 as [T2a T2b].
      apply Z.leb_le in T2a, T2b.
      destruct r0 as [|b1 r1]; [discriminate|].
      apply Forall_cons in Hr0. destruct Hr0 as [Hb1 Hr1].
      unfold is_cont in H. destruct ((128 <=? b1) && (b1 <=? 191)) eqn:T; [|discriminate].
      apply andb_true_iff in T. destruct T as [Ta Tb]. apply Z.leb_le in Ta, Tb.
      bind_inv H. injection H as <-. simpl in Hn.
      destruct (IH r1 a ltac:(lia) Hr1 E) as [Hs He]. split.
      - simpl. rewrite Hs, andb_true_r. unfold is_scalar. settle_tests. reflexivity.
      - change (encode_utf8_char ((b0 - 192) * 64 + (b1 - 128)) ++ encode_utf8 a
                = b0 :: b1 :: r1).
        rewrite He. unfold encode_utf8_char. settle_tests. cbn [app].
        repeat f_equal; arith. }
    destruct ((224 <=? b0) && (b0 <=? 239)) eqn:T3.
    { apply andb_true_iff in T3. destruct T3 as [T3a T3b].
      apply Z.leb_le in T3a, T3b.
      destruct r0 as [|b1 [|b2 r2]]; try discriminate.
      apply Forall_cons in Hr0. destruct Hr0 as [Hb1 Hr1].
      apply Forall_cons in Hr1. destruct Hr1 as [Hb2 Hr2].
      cbv zeta in H. unfold is_cont in H.
      destruct (_ && _ && _) eqn:T in H; [|discriminate].
      apply andb_true_iff in T. destruct T as [T Tc].
      apply andb_true_iff in T. destruct T as [Ta Tb].
      apply andb_true_iff in Tc. destruct Tc as [Tc Td].
      apply Z.leb_le in Ta, Tb, Tc, Td.
      bind_inv H. injection H as <-. simpl in Hn.
      destruct (IH r2 a ltac:(lia) Hr2 E) as [Hs He].
      assert (Hlo : (if b0 =? 224 then 160 else 128) <= b1) by exact Ta.
      assert (Hhi : b1 <= (if b0 =? 237 then 159 else 191)) by exact Tb.
      clear Ta Tb.
      destruct (Z.eqb_spec b0 224); destruct (Z.eqb_spec b0 237); try lia;
        (split;
         [ simpl; rewrite Hs, andb_true_r; unfold is_scalar; settle_tests; reflexivity
         | change (encode_utf8_char ((b0 - 224) * 4096 + (b1 - 128) * 64 + (b2 - 128))
                   ++ encode_utf8 a = b0 :: b1 :: b2 :: r2);
           rewrite He; unfold encode_utf8_char; settle_tests; cbn [app];
           repeat f_equal; arith ]). }
    destruct ((240 <=? b0) && (b0 <=? 244)) eqn:T4; [|discriminate].
    apply andb_true_iff in T4. destruct T4 as [T4a T4b].
    apply Z.leb_le in T4a, T4b.
    destruct r0 as [|b1 [|b2 [|b3 r3]]]; try discriminate.
    apply Forall_cons in Hr0. destruct Hr0 as [Hb1 Hr1].
    apply Forall_cons in Hr1. destruct Hr1 as [Hb2 Hr2].
    apply Forall_cons in Hr2. destruct Hr2 as [Hb3 Hr3].
    cbv zeta in H. unfold is_cont in H.
    destruct (_ && _ && _ && _) eqn:T in H; [|discriminate].
    apply andb_true_iff in T. destruct T as [T Te].
    apply andb_true_iff in T. destruct T as [T Tc].
    apply andb_true_iff in T. destruct T as [Ta Tb].
    apply andb_true_iff in Tc. destruct Tc as [Tc Td].
    apply andb_true_iff in Te. destruct Te as [Te Tf].
    apply Z.leb_le in Ta, Tb, Tc, Td, Te, Tf.
    bind_inv H. injection H as <-. simpl in Hn.
    destruct (IH r3 a ltac:(lia) Hr3 E) as [Hs He].
    assert (Hlo : (if b0 =? 240 then 144 else 128) <= b1) by exact Ta.
    assert (Hhi : b1 <= (if b0 =? 244 then 143 else 191)) by exact Tb.
    clear Ta Tb.
    destruct (Z.eqb_spec b0 240); destruct (Z.eqb_spec b0 244); try lia;
      (split;
       [ simpl; rewrite Hs, andb_true_r; unfold is_scalar; settle_tests; reflexivity
       | change (encode_utf8_char ((b0 - 240) * 262144 + (b1 - 128) * 4096
                                   + (b2 - 128) * 64 + (b3 - 128))
                 ++ encode_utf8 a = b0 :: b1 :: b2 :: b3 :: r3);
         rewrite He; unfold encode_utf8_char; settle_tests; cbn [app];
         repeat f_equal; arith ]).
Qed.

(** X1: the Latin-1 / UTF-8 round trip succeeds exactly on the strings that
    are the UTF-8 bytes of some text of Unicode scalar values, each byte read
    as one character, and it returns that text. *)
Theorem repair_latin1_undoes_misdecoding s s' :
  repair_latin1 s = Ok s' <-> (forallb is_scalar s' = true /\ s = encode_utf8 s').
Proof.
  unfold repair_latin1. split.
  - intros H. bind_inv H. apply encode_latin1_ok in E. destruct E as [-> F].
    destruct (decode_utf8_inv (length s) s s' ltac:(lia) F H) as [Hs He]. auto.
  - intros [Hs ->].
    rewrite encode_latin1_bytes.
    + simpl. now apply decode_utf8_encode.
    + clear -Hs. induction s' as [|c s IH]; [constructor|].
      simpl in Hs. apply andb_true_iff in Hs. destruct Hs as [Hc Hs].
      simpl. apply Forall_app. split; [now apply encode_utf8_char_bytes | auto].
Qed.

Lemma decode_utf16_units_scalar s :
  forallb is_scalar s = true -> decode_utf16_units (utf16_units s) = Ok s.
Proof.
  induction s as [|c s IH]; [reflexivity|].
  simpl. intros H. apply andb_true_iff in H. destruct H as [Hc Hs].
  apply is_scalar_bounds in Hc. destruct Hc as [Hc Hn]. specialize (IH Hs).
  destruct (Z.ltb_spec c 65536).
  - cbn [decode_utf16_units]. unfold is_high_surrogate, is_low_surrogate.
    settle_tests; now rewrite IH.
  - cbn [decode_utf16_units]. unfold is_high_surrogate, is_low_surrogate.
    settle_tests. rewrite IH. cbn [rbind]. do 2 f_equal. arith.
Qed.

Lemma decode_utf16_units_no_surrogate n : forall us s,
  (length us <= n)%nat -> decode_utf16_units us = Ok s ->
  forallb (fun c => negb (is_surrogate c)) s = true.
Proof.
  induction n as [|n IH]; intros us s Hn H.
  - destruct us; [|simpl in Hn; lia]. now injection H as <-.
  - destruct us as [|u r]; [now injection H as <-|].
    simpl in Hn. cbn [decode_utf16_units] in H.
    destruct (is_high_surrogate u) eqn:Hh.
    + destruct r as [|v r']; [discriminate|].
      destruct (is_low_surrogate v) eqn:Hl; [|discriminate].
      bind_inv H. injection H as <-. simpl in Hn.
      simpl. rewrite (IH r' a) by (lia || assumption). rewrite andb_true_r.
      unfold is_high_surrogate in Hh. unfold is_low_surrogate in Hl.
      apply andb_true_iff in Hh, Hl. destruct Hh as [H1 H2], Hl as [H3 H4].
      apply Z.leb_le in H1, H2, H3, H4.
      unfold is_surrogate, is_high_surrogate, is_low_surrogate.
      settle_tests. reflexivity.
    + destruct (is_low_surrogate u) eqn:Hl; [discriminate|].
      bind_inv H. injection H as <-.
      simpl. rewrite (IH r a) by (lia || assumption). rewrite andb_true_r.
      unfold is_surrogate. now rewrite Hh, Hl.
Qed.

(** X2: the UTF-16 round trip returns a text of Unicode scalar values
    unchanged, and whatever it returns holds no surrogate code point. *)
Theorem repair_utf16_scalar_text s :
  (forallb is_scalar s = true -> repair_utf16 s = Ok s)
  /\ (forall s', repair_utf16 s = Ok s' ->
        forallb (fun c => negb (is_surrogate c)) s' = true).
Proof.
  unfold repair_utf16, encode_utf16_surrogatepass, decode_utf16. split.
  - apply decode_utf16_units_scalar.
  - intros s' H. eapply decode_utf16_units_no_surrogate; [|exact H]. reflexivity.
Qed.

(** ** The emoticon rewrite applied twice *)

Lemma dict_get_cases {V} (d : list (str * V)) k v :
  (exists e, In (k, e) d /\ dict_get d k v = e) \/ dict_get d k v = v.
Proof.
  induction d as [|[k' e'] d IH]; [now right|].
  simpl. unfold str_eqb. destruct (bool_decide (k' = k)) eqn:E.
  - apply bool_decide_eq_true in E. subst. left. exists e'. split; [now left | reflexivity].
  - destruct IH as [(e & Hin & He) | He]; [left | now right].
    exists e. split; [now right | assumption].
Qed.

Lemma rewrite_token_idempotent i : rewrite_token (rewrite_token i) = rewrite_token i.
Proof.
  destruct (dict_get_cases convertable_emojis i i) as [(e & Hin & He) | He];
    unfold rewrite_token at 2 3; rewrite He; [|exact He].
  assert (F : Forall (fun kv => rewrite_token (snd kv) = snd kv) convertable_emojis)
    by (repeat constructor).
  rewrite Forall_forall in F. apply list_elem_of_In in Hin. exact (F _ Hin).
Qed.

(** X3: the emoticon rewrite is idempotent, and its result has single spaces
    between its tokens and none around them: rewriting a rewritten message
    changes nothing. *)
Theorem convert_symbols_to_emojis_idempotent message :
  convert_symbols_to_emojis (convert_symbols_to_emojis message)
  = convert_symbols_to_emojis message
  /\ join (lit " ") (split_ws (convert_symbols_to_emojis message))
     = convert_symbols_to_emojis message.
Proof.
  assert (E : split_ws (convert_symbols_to_emojis message)
              = map rewrite_token (split_ws message)).
  { unfold convert_symbols_to_emojis. apply split_ws_join.
    pose proof (split_ws_words message) as H. revert H.
    generalize (split_ws message). induction l as [|w l IH]; [easy|].
    simpl. intros H. apply andb_true_iff in H. destruct H as [Hw Hl].
    change (is_word (rewrite_token w) && forallb is_word (map rewrite_token l) = true).
    now rewrite rewrite_token_word, IH. }
  split.
  - unfold convert_symbols_to_emojis at 1. fold rewrite_token. rewrite E.
    unfold convert_symbols_to_emojis. fold rewrite_token. f_equal.
    rewrite map_map. apply map_ext. intros w. apply rewrite_token_idempotent.
  - rewrite E. reflexivity.
Qed.

(** ** Histograms *)

Lemma count_at_bump d k p :
  count_at (bump d k) p = (count_at d p + (if bool_decide (k = p) then 1 else 0))%nat.
Proof.
  unfold count_at. rewrite bump_lookup. destruct (decide (k = p)) as [-> | Hne].
  - rewrite bool_decide_eq_true_2 by reflexivity. simpl. lia.
  - rewrite bool_decide_eq_false_2 by assumption. lia.
Qed.

Lemma total_count_insert_fresh d k n :
  d !! k = None -> total_count (<[k := n]> d) = (n + total_count d)%nat.
Proof.
  intros H. unfold total_count.
  apply (map_fold_insert_L (fun _ n acc => (n + acc)%nat)); [|assumption].
  intros. lia.
Qed.

Lemma total_count_bump d k : total_count (bump d k) = S (total_count d).
Proof.
  unfold bump. destruct (d !! k) as [n|] eqn:E.
  - rewrite E. rewrite <- (insert_delete_eq d k (S n)).
    rewrite total_count_insert_fresh by apply lookup_delete_eq.
    rewrite <- (insert_id d k n E) at 2. rewrite <- (insert_delete_eq d k n).
    rewrite total_count_insert_fresh by apply lookup_delete_eq. lia.
  - rewrite lookup_insert_eq, insert_insert_eq.
    now rewrite total_count_insert_fresh.
Qed.

Lemma count_keys_counts key_of ms : forall d d',
  count_keys key_of d ms = Ok d' ->
  (forall k, count_at d' k = (count_at d k + occurrences key_of k ms)%nat)
  /\ total_count d' = (total_count d + length ms)%nat.
Proof.
  induction ms as [|m ms IH]; intros d d' H; simpl in H.
  - injection H as <-. split; [intros k; unfold occurrences; simpl; lia | simpl; lia].
  - bind_inv H. destruct (IH _ _ H) as [Hk Ht]. split.
    + intros k. rewrite Hk, count_at_bump. unfold occurrences, has_key. simpl.
      rewrite E. unfold str_eqb. destruct (bool_decide (a = k)); simpl; lia.
    + rewrite Ht, total_count_bump. simpl. lia.
Qed.

Lemma count_keys_total key_of ms : forall d,
  Forall (fun m => exists k, key_of (time m) = Ok k) ms ->
  exists d', count_keys key_of d ms = Ok d'.
Proof.
  induction ms as [|m ms IH]; intros d H; [now exists d|].
  apply Forall_cons in H. destruct H as [[k Hk] Hms].
  simpl. rewrite Hk. simpl. now apply IH.
Qed.

Lemma split_on_nonempty sep s : exists p ps, split_on sep s = p :: ps.
Proof.
  induction s as [|c s (p & ps & IH)]; simpl; [now exists [], []|].
  rewrite IH. destruct (c =? sep); eauto.
Qed.

Lemma py_index_first {A} (x : A) l : py_index (x :: l) 0 = Ok x.
Proof.
  unfold py_index. simpl length.
  replace (0 <? 0) with false by reflexivity. cbn [orb].
  destruct (Z.leb_spec (Z.of_nat (S (length l))) 0); [lia | reflexivity].
Qed.

Lemma py_index_last_nonempty {A} (x : A) l : exists y, py_index (x :: l) (-1) = Ok y.
Proof.
  destruct (exists_last (l := x :: l)) as (l' & y & ->); [discriminate|].
  exists y. apply py_index_last.
Qed.

Lemma weekday_key_total t : exists k, weekday_key t = Ok k.
Proof.
  unfold weekday_key. destruct (split_on_nonempty 32 t) as (p & ps & ->).
  exists p. apply py_index_first.
Qed.

Lemma hour_key_total t : exists k, hour_key t = Ok k.
Proof.
  unfold hour_key. destruct (split_on_nonempty 58 t) as (p & ps & ->).
  rewrite py_index_first. simpl.
  destruct (split_on_nonempty 32 p) as (q & qs & ->).
  apply py_index_last_nonempty.
Qed.

(** X4: the weekday and the hour histogram never fail, whatever the time
    strings are; each call adds to every key the number of messages that
    yield it, so the counts grow by the number of messages in all (again on
    every further call). *)
Theorem weekday_and_hour_histograms_total c :
  exists c1 c2,
    get_weekday_frequency c = Ok c1 /\ get_hour_frequency c = Ok c2
    /\ (forall k, count_at (weekday_frequency c1) k
                  = (count_at (weekday_frequency c) k
                     + occurrences weekday_key k (messages c))%nat)
    /\ (forall k, count_at (hour_frequency c2) k
                  = (count_at (hour_frequency c) k
                     + occurrences hour_key k (messages c))%nat)
    /\ total_count (weekday_frequency c1)
       = (total_count (weekday_frequency c) + length (messages c))%nat
    /\ total_count (hour_frequency c2)
       = (total_count (hour_frequency c) + length (messages c))%nat.
Proof.
  destruct (count_keys_total weekday_key (messages c) (weekday_frequency c)) as [d1 H1].
  { apply Forall_forall. intros m _. apply weekday_key_total. }
  destruct (count_keys_total hour_key (messages c) (hour_frequency c)) as [d2 H2].
  { apply Forall_forall. intros m _. apply hour_key_total. }
  unfold get_weekday_frequency, get_hour_frequency. rewrite H1, H2.
  eexists. eexists. split; [reflexivity|]. split; [reflexivity|]. cbn.
  destruct (count_keys_counts _ _ _ _ H1) as [K1 T1].
  destruct (count_keys_counts _ _ _ _ H2) as [K2 T2]. auto.
Qed.

(** ** Ingestion only appends *)

(** X12: whatever conversation [load_messages] starts from, it only appends
    messages: the messages already there stay in front, in their order, and
    the participants, the path and all six tables are as before. *)
Theorem load_messages_only_appends utcoffset dir conv conv' :
  load_messages utcoffset dir conv = Ok conv' ->
  exists new,
    Forall (produced utcoffset) new
    /\ conv' = mk_Conversation (participants_fb conv) (participants_discord conv)
                 (path conv) (messages conv ++ new)
                 (weekday_frequency conv) (hour_frequency conv) (day_frequency conv)
                 (emoji_frequency conv)
                 (participants_message_count conv) (participants_message_length conv).
Proof.
  unfold load_messages. intros H. apply load_files_inv in H.
  destruct H as (new & Hnew & ->). exists new. split; [assumption|].
  apply foldl_add_message_eq.
Qed.

(** ** Day labels and their sort keys *)

Lemma is_plain_word w : is_plain w = true -> is_word w = true.
Proof. unfold is_plain. intros H. now apply andb_true_iff in H. Qed.

Lemma month_name_plain m :
  1 <= m <= 12 -> is_plain (nth (Z.to_nat (m - 1)) MONTHNAMES []) = true.
Proof. intros H. apply nth_plain; [reflexivity | simpl; lia]. Qed.

Lemma day_label_split_ws y m d :
  valid_date y m d ->
  split_ws (day_label y m d)
  = [nth (Z.to_nat (m - 1)) MONTHNAMES []; day_digits d; fmt_04d y].
Proof.
  intros (Hy & Hm & Hd). unfold day_label.
  change (lit " " ++ day_digits d ++ lit " " ++ fmt_04d y)
    with (32 :: day_digits d ++ 32 :: fmt_04d y).
  rewrite split_ws_word_space
    by (apply is_plain_word, month_name_plain; assumption) || reflexivity.
  rewrite split_ws_word_space
    by (apply is_plain_word, day_digits_plain; assumption) || reflexivity.
  rewrite split_ws_word by (apply is_plain_word, fmt_04d_plain; lia).
  reflexivity.
Qed.

Lemma month_index m :
  1 <= m <= 12 ->
  list_index months (nth (Z.to_nat (m - 1)) MONTHNAMES []) = Ok (Z.to_nat (m - 1)).
Proof.
  intros H.
  assert (E : m = 1 \/ m = 2 \/ m = 3 \/ m = 4 \/ m = 5 \/ m = 6 \/ m = 7 \/ m = 8
              \/ m = 9 \/ m = 10 \/ m = 11 \/ m = 12) by lia.
  repeat (destruct E as [-> | E]; [reflexivity|]). now subst.
Qed.

Lemma pad_day_digits d : 1 <= d <= 31 -> pad_left_zeros 2 (day_digits d) = fmt_02d d.
Proof.
  intros H. unfold day_digits, fmt_02d. destruct (Z.ltb_spec d 10).
  - cbn. f_equal; [|f_equal]; arith.
  - reflexivity.
Qed.

Lemma sortkey_date_label y m d n :
  valid_date y m d ->
  sortkey_date (day_label y m d, n) = Ok (fmt_04d y, Z.to_nat (m - 1), fmt_02d d).
Proof.
  intros H. unfold sortkey_date. cbn [fst].
  rewrite day_label_split_ws by assumption.
  destruct H as (Hy & Hm & Hd).
  change (py_index [nth (Z.to_nat (m - 1)) MONTHNAMES []; day_digits d; fmt_04d y] 2)
    with (Ok (A := list Z) (fmt_04d y)). cbn [rbind].
  change (py_index [nth (Z.to_nat (m - 1)) MONTHNAMES []; day_digits d; fmt_04d y] 0)
    with (Ok (A := list Z) (nth (Z.to_nat (m - 1)) MONTHNAMES [])). cbn [rbind].
  rewrite month_index by assumption. cbn [rbind].
  change (py_index [nth (Z.to_nat (m - 1)) MONTHNAMES []; day_digits d; fmt_04d y] 1)
    with (Ok (A := list Z) (day_digits d)). cbn [rbind].
  now rewrite pad_day_digits.
Qed.

Ltac decide_tests :=
  repeat (match goal with
          | |- context [Z.eqb ?a ?b] =>
              destruct (Z.eqb_spec a b); try (exfalso; arith)
          | |- context [Z.ltb ?a ?b] =>
              destruct (Z.ltb_spec a b); try (exfalso; arith)
          end; cbn [andb orb negb]);
  first [reflexivity | exfalso; arith].

Lemma fmt_02d_ltb a b :
  0 <= a <= 99 -> 0 <= b <= 99 -> str_ltb (fmt_02d a) (fmt_02d b) = (a <? b).
Proof. intros Ha Hb. unfold fmt_02d. cbn [str_ltb]. decide_tests. Qed.

Lemma fmt_04d_ltb a b :
  0 <= a <= 9999 -> 0 <= b <= 9999 -> str_ltb (fmt_04d a) (fmt_04d b) = (a <? b).
Proof. intros Ha Hb. unfold fmt_04d. cbn [str_ltb]. decide_tests. Qed.

Lemma fmt_04d_inj a b :
  0 <= a <= 9999 -> 0 <= b <= 9999 -> fmt_04d a = fmt_04d b -> a = b.
Proof. intros Ha Hb H. unfold fmt_04d in H. injection H as H1 H2 H3 H4. arith. Qed.

Lemma sortkey_ltb_rank y m d y' m' d' :
  valid_date y m d -> valid_date y' m' d' ->
  sortkey_ltb (fmt_04d y, Z.to_nat (m - 1), fmt_02d d)
              (fmt_04d y', Z.to_nat (m' - 1), fmt_02d d')
  = (date_rank y m d <? date_rank y' m' d').
Proof.
  intros (Hy & Hm & Hd) (Hy' & Hm' & Hd'). unfold sortkey_ltb, date_rank.
  rewrite fmt_04d_ltb, fmt_02d_ltb by lia.
  destruct (bool_decide (fmt_04d y = fmt_04d y')) eqn:E.
  - apply bool_decide_eq_true, fmt_04d_inj in E; [|lia..]. subst y'.
    destruct (Nat.ltb_spec (Z.to_nat (m - 1)) (Z.to_nat (m' - 1)));
      destruct (Nat.eqb_spec (Z.to_nat (m - 1)) (Z.to_nat (m' - 1)));
      destruct (Z.ltb_spec y y); destruct (Z.ltb_spec d d');
      destruct (Z.ltb_spec ((y * 100 + m) * 100 + d) ((y * 100 + m') * 100 + d'));
      cbn; try reflexivity; lia.
  - apply bool_decide_eq_false in E. assert (y <> y') by congruence.
    destruct (Z.ltb_spec y y');
      destruct (Z.ltb_spec ((y * 100 + m) * 100 + d) ((y' * 100 + m') * 100 + d'));
      cbn; try reflexivity; lia.
Qed.

(** X6: the sort key of a day label compares as the calendar does: for two
    labels of valid dates, the key of the first is smaller than the key of
    the second exactly when the first date is the earlier one. *)
Theorem sortkey_date_chronological y m d n y' m' d' n' :
  valid_date y m d -> valid_date y' m' d' ->
  exists k k',
    sortkey_date (day_label y m d, n) = Ok k
    /\ sortkey_date (day_label y' m' d', n') = Ok k'
    /\ sortkey_ltb k k' = (date_rank y m d <? date_rank y' m' d').
Proof.
  intros H H'. eexists. eexists.
  split; [now apply sortkey_date_label|]. split; [now apply sortkey_date_label|].
  now apply sortkey_ltb_rank.
Qed.

Lemma sortkey_date_chronological_witness :
  exists k k',
    sortkey_date (day_label 2020 12 31, 5%nat) = Ok k
    /\ sortkey_date (day_label 2021 1 5, 7%nat) = Ok k'
    /\ sortkey_ltb k k' = (date_rank 2020 12 31 <? date_rank 2021 1 5).
Proof.
  apply sortkey_date_chronological; unfold valid_date; lia.
Defined.

(** X14: a label with fewer than three words has no sort key
    ([IndexError]), and neither has one whose first word is not one of the
    twelve month abbreviations ([ValueError]). *)
Theorem sortkey_date_rejects label n :
  ((length (split_ws label) < 3)%nat -> sortkey_date (label, n) = Raise IndexError)
  /\ (forall mon day year rest,
        split_ws label = mon :: day :: year :: rest -> mon ∉ months ->
        sortkey_date (label, n) = Raise ValueError).
Proof.
  split.
  - intros H. unfold sortkey_date. cbn [fst].
    destruct (split_ws label) as [|a [|b [|c l]]]; try reflexivity.
    simpl in H. lia.
  - intros mon day year rest E Hm. unfold sortkey_date. cbn [fst]. rewrite E.
    assert (P2 : py_index (mon :: day :: year :: rest) 2 = Ok year).
    { unfold py_index. cbn [length]. replace (2 <? 0) with false by reflexivity.
      destruct (Z.leb_spec (Z.of_nat (S (S (S (length rest))))) 2); [lia|].
      reflexivity. }
    rewrite P2, py_index_first. cbn [rbind].
    assert (F : forall l, mon ∉ l -> list_index l mon = Raise ValueError).
    { induction l as [|x l IH]; [reflexivity|]. intros Hn. simpl.
      unfold str_eqb. rewrite bool_decide_eq_false_2.
      - rewrite IH; [reflexivity|]. intros Hin. apply Hn. now constructor.
      - intros ->. apply Hn. constructor. }
    now rewrite F.
Qed.

(** ** The day histogram of an ingested conversation *)

Lemma count_keys_keys key_of ms : forall d d',
  count_keys key_of d ms = Ok d' ->
  forall k, is_Some (d' !! k) ->
  is_Some (d !! k) \/ exists m, m ∈ ms /\ key_of (time m) = Ok k.
Proof.
  induction ms as [|m ms IH]; intros d d' H k Hk; simpl in H.
  - injection H as <-. now left.
  - bind_inv H. destruct (IH _ _ H k Hk) as [Hs | (m' & Hin & Hm')].
    + rewrite bump_lookup in Hs. destruct (decide (a = k)) as [-> | _].
      * right. exists m. split; [constructor | assumption].
      * now left.
    + right. exists m'. split; [now constructor | assumption].
Qed.

Lemma day_histogram_ingested utcoffset dir pth fb dc conv :
  load_messages utcoffset dir (Conversation_init pth fb dc) = Ok conv ->
  exists conv',
    get_day_frequency conv = Ok conv'
    /\ (forall k, count_at (day_frequency conv') k
                  = occurrences day_key k (messages conv))
    /\ total_count (day_frequency conv') = length (messages conv)
    /\ (forall k, is_Some (day_frequency conv' !! k) ->
          exists y m d, valid_date y m d /\ k = day_label y m d).
Proof.
  intros H. apply load_messages_inv in H. destruct H as [Hp Hc].
  assert (L : Forall (fun m => ctime_layout (time m)) (messages conv)).
  { eapply Forall_impl; [exact Hp|]. intros m. apply produced_layout. }
  assert (E0 : day_frequency conv = ∅) by (rewrite Hc, foldl_add_message_eq; reflexivity).
  destruct (count_keys_total day_key (messages conv) ∅) as [d' Hd'].
  { eapply Forall_impl; [exact L|]. intros m (wd & mon & d & h & mi & s & y & _ & _ & _ & _ & K).
    eauto. }
  unfold get_day_frequency. rewrite E0, Hd'. eexists. split; [reflexivity|]. cbn.
  destruct (count_keys_counts _ _ _ _ Hd') as [K T].
  split; [|split].
  - intros k. rewrite K. unfold count_at. now rewrite lookup_empty.
  - rewrite T. reflexivity.
  - intros k Hk. destruct (count_keys_keys _ _ _ _ Hd' k Hk) as [Hs | (m & Hin & Hm)].
    + rewrite lookup_empty in Hs. now destruct Hs.
    + rewrite Forall_forall in L.
      destruct (L m Hin) as (wd & mon & d & h & mi & s & y & R & _ & _ & _ & Kd).
      rewrite Kd in Hm. injection Hm as <-.
      exists y, mon, d. split; [unfold valid_date; lia | reflexivity].
Qed.


(** X5: on a conversation that [load_messages] filled, the day histogram is
    computed without error; it counts for every key the messages of that
    day, its counts add up to the number of messages, and each of its keys
    is the label "month day year" of a valid date. *)
Theorem day_histogram_of_ingested utcoffset dir pth fb dc conv :
  load_messages utcoffset dir (Conversation_init pth fb dc) = Ok conv ->
  exists conv',
    get_day_frequency conv = Ok conv'
    /\ (forall k, count_at (day_frequency conv') k
                  = occurrences day_key k (messages conv))
    /\ total_count (day_frequency conv') = length (messages conv)
    /\ (forall k, is_Some (day_frequency conv' !! k) ->
          exists y m d, valid_date y m d /\ k = day_label y m d).
Proof. apply day_histogram_ingested. Qed.

(** ** Sorting the days *)

Lemma insert_keyed_perm {K A} (ltb : K -> K -> bool) (x : K * A) l :
  insert_keyed ltb x l ≡ₚ x :: l.
Proof.
  induction l as [|y l IH]; [reflexivity|].
  simpl. destruct (ltb (fst y) (fst x)); [|reflexivity].
  rewrite IH. apply Permutation_swap.
Qed.

Lemma sort_keyed_perm {K A} (ltb : K -> K -> bool) (l : list (K * A)) :
  sort_keyed ltb l ≡ₚ l.
Proof.
  induction l as [|x l IH]; [reflexivity|].
  simpl. rewrite insert_keyed_perm. now rewrite IH.
Qed.

Lemma insert_keyed_map {K K' A B} (ltb : K -> K -> bool) (ltb' : K' -> K' -> bool)
    (f : K * A -> K' * B) (P : K * A -> Prop) x l :
  (forall a b, P a -> P b -> ltb' (fst (f a)) (fst (f b)) = ltb (fst a) (fst b)) ->
  P x -> Forall P l ->
  insert_keyed ltb' (f x) (map f l) = map f (insert_keyed ltb x l).
Proof.
  intros Hf Hx. induction 1 as [|y l Hy _ IH]; [reflexivity|].
  simpl. rewrite Hf by assumption.
  destruct (ltb (fst y) (fst x)); [|reflexivity]. simpl. now rewrite IH.
Qed.

Lemma sort_keyed_map {K K' A B} (ltb : K -> K -> bool) (ltb' : K' -> K' -> bool)
    (f : K * A -> K' * B) (P : K * A -> Prop) l :
  (forall a b, P a -> P b -> ltb' (fst (f a)) (fst (f b)) = ltb (fst a) (fst b)) ->
  Forall P l ->
  sort_keyed ltb' (map f l) = map f (sort_keyed ltb l).
Proof.
  intros Hf. induction 1 as [|x l Hx Hl IH]; [reflexivity|].
  simpl. rewrite IH. apply (insert_keyed_map ltb ltb' f P); [assumption..|].
  now rewrite sort_keyed_perm.
Qed.

Lemma insert_keyed_sorted {A} (x : Z * A) l :
  Sorted Z.le (map fst l) -> Sorted Z.le (map fst (insert_keyed Z.ltb x l)).
Proof.
  induction l as [|y l IH]; intros H; [repeat constructor|].
  simpl. destruct (Z.ltb_spec (fst y) (fst x)) as [Hlt | Hge].
  - simpl. simpl in H. apply Sorted_inv in H. destruct H as [Hs Hh].
    constructor; [now apply IH|].
    destruct l as [|z l]; simpl.
    + constructor. lia.
    + destruct (Z.ltb_spec (fst z) (fst x)); constructor; [|lia].
      now inversion Hh.
  - simpl. constructor; [assumption|]. constructor. assumption.
Qed.

Lemma sort_keyed_sorted {A} (l : list (Z * A)) :
  Sorted Z.le (map fst (sort_keyed Z.ltb l)).
Proof.
  induction l as [|x l IH]; [constructor|]. simpl. now apply insert_keyed_sorted.
Qed.

Lemma with_keys_dated dated :
  Forall item_valid dated ->
  with_keys sortkey_date (map dated_item dated)
  = Ok (map (fun x => let '(y, m, d, n) := x in
                      ((fmt_04d y, Z.to_nat (m - 1), fmt_02d d), dated_item x)) dated).
Proof.
  induction 1 as [|[[[y m] d] n] l Hx _ IH]; [reflexivity|].
  simpl. rewrite sortkey_date_label by exact Hx. simpl. now rewrite IH.
Qed.

Lemma sorted_by_date_dated dated :
  Forall item_valid dated ->
  exists dated',
    dated' ≡ₚ dated
    /\ sorted_by_date (map dated_item dated) = Ok (map dated_item dated')
    /\ Sorted Z.le (map item_rank dated').
Proof.
  intros H.
  set (ranked := map (fun x => (item_rank x, x)) dated).
  exists (map snd (sort_keyed Z.ltb ranked)).
  assert (I : Forall (fun p : Z * (Z * Z * Z * nat) =>
                        fst p = item_rank (snd p) /\ item_valid (snd p)) ranked).
  { subst ranked. apply Forall_map. eapply Forall_impl; [exact H|]. now intros x Hx. }
  assert (I' : Forall (fun p : Z * (Z * Z * Z * nat) =>
                         fst p = item_rank (snd p) /\ item_valid (snd p))
                      (sort_keyed Z.ltb ranked)) by now rewrite sort_keyed_perm.
  split; [|split].
  - rewrite sort_keyed_perm. subst ranked. rewrite map_map. simpl. now rewrite map_id.
  - unfold sorted_by_date. rewrite with_keys_dated by assumption. cbn [rbind]. f_equal.
    set (f := fun p : Z * (Z * Z * Z * nat) =>
                let '(y, m, d, n) := snd p in
                ((fmt_04d y, Z.to_nat (m - 1), fmt_02d d), dated_item (snd p))).
    replace (map _ dated) with (map f ranked).
    + rewrite (sort_keyed_map Z.ltb sortkey_ltb f
                 (fun p => fst p = item_rank (snd p) /\ item_valid (snd p))).
      * rewrite !map_map. apply map_ext. now intros [r [[[y m] d] n]].
      * intros [r [[[y m] d] n]] [r' [[[y' m'] d'] n']] [Hr Hv] [Hr' Hv'].
        simpl in *. subst r r'. now apply sortkey_ltb_rank.
      * exact I.
    + subst ranked. rewrite map_map. apply map_ext. now intros [[[y m] d] n].
  - replace (map item_rank (map snd (sort_keyed Z.ltb ranked)))
      with (map fst (sort_keyed Z.ltb ranked)); [apply sort_keyed_sorted|].
    rewrite map_map. clear -I'. induction I' as [|p l [Hp _] _ IH]; [reflexivity|].
    simpl. now rewrite Hp, IH.
Qed.

(** X7: sorting the items of the day histogram with [sortkey_date] as the
    key succeeds when every label is the label of a valid date, and returns
    the same items in the order of the calendar. *)
Theorem sorted_by_date_chronological dated :
  Forall item_valid dated ->
  exists dated',
    dated' ≡ₚ dated
    /\ sorted_by_date (map dated_item dated) = Ok (map dated_item dated')
    /\ Sorted Z.le (map item_rank dated').
Proof. apply sorted_by_date_dated. Qed.

Lemma sorted_by_date_chronological_witness :
  exists dated',
    dated' ≡ₚ [(2021, 1, 5, 3%nat); (2020, 12, 31, 1%nat); (2021, 1, 1, 2%nat)]
    /\ sorted_by_date (map dated_item
                         [(2021, 1, 5, 3%nat); (2020, 12, 31, 1%nat); (2021, 1, 1, 2%nat)])
       = Ok (map dated_item dated')
    /\ Sorted Z.le (map item_rank dated').
Proof.
  apply sorted_by_date_chronological.
  repeat constructor; unfold valid_date; lia.
Defined.

Example sorted_by_date_example :
  sorted_by_date [(lit "Jan 5 2021", 3%nat); (lit "Dec 31 2020", 1%nat);
                  (lit "Jan 1 2021", 2%nat)]
  = Ok [(lit "Dec 31 2020", 1%nat); (lit "Jan 1 2021", 2%nat); (lit "Jan 5 2021", 3%nat)].
Proof. vm_compute. reflexivity. Qed.

(** ** The weekday graph *)

Lemma list_index_elem l v :
  v ∈ l ->
  exists i, list_index l v = Ok i /\ l !! i = Some v
            /\ forall j, (j < i)%nat -> l !! j <> Some v.
Proof.
  induction l as [|x l IH]; intros H; [now apply not_elem_of_nil in H|].
  simpl. unfold str_eqb. destruct (decide (x = v)) as [-> | Hne].
  - rewrite bool_decide_eq_true_2 by reflexivity. exists 0%nat.
    split; [reflexivity|]. split; [reflexivity|]. intros j Hj. lia.
  - rewrite bool_decide_eq_false_2 by assumption.
    apply elem_of_cons in H. destruct H as [-> | H]; [congruence|].
    destruct (IH H) as (i & -> & Hi & Hfirst). exists (S i).
    split; [reflexivity|]. split; [exact Hi|].
    intros [|j] Hj; simpl; [congruence | apply Hfirst; lia].
Qed.

Lemma list_index_not_elem l v : v ∉ l -> list_index l v = Raise ValueError.
Proof.
  induction l as [|x l IH]; [reflexivity|]. intros Hn. simpl.
  unfold str_eqb. rewrite bool_decide_eq_false_2.
  - rewrite IH; [reflexivity|]. intros Hin. apply Hn. now constructor.
  - intros ->. apply Hn. constructor.
Qed.

Lemma list_index_ok_elem l v i : list_index l v = Ok i -> v ∈ l.
Proof.
  intros H. destruct (decide (v ∈ l)) as [Hin | Hn]; [assumption|].
  rewrite list_index_not_elem in H by assumption. discriminate.
Qed.

Lemma insert_by_perm {A} (key : A -> str) (x : A) l : insert_by key x l ≡ₚ x :: l.
Proof.
  induction l as [|y l IH]; [reflexivity|].
  simpl. destruct (str_ltb (key y) (key x)); [|reflexivity].
  rewrite IH. apply Permutation_swap.
Qed.

Lemma sort_by_perm {A} (key : A -> str) (l : list A) : sort_by key l ≡ₚ l.
Proof.
  induction l as [|x l IH]; [reflexivity|].
  simpl. rewrite insert_by_perm. now rewrite IH.
Qed.

Lemma sorted_items_elem d k n : (k, n) ∈ sorted_items d <-> d !! k = Some n.
Proof.
  unfold sorted_items. rewrite sort_by_perm. apply elem_of_map_to_list.
Qed.

Lemma sorted_items_keys d k : k ∈ map fst (sorted_items d) <-> is_Some (d !! k).
Proof.
  rewrite list_elem_of_fmap. split.
  - intros ([k' n] & -> & H). apply sorted_items_elem in H. simpl. eauto.
  - intros [n H]. exists (k, n). split; [reflexivity | now apply sorted_items_elem].
Qed.

Lemma lookup_map {A B} (f : A -> B) (l : list A) i : map f l !! i = f <$> l !! i.
Proof. revert i. induction l as [|x l IH]; intros [|i]; simpl; auto. Qed.

Lemma take_indices_cons {A} (x : list A) i indices v :
  x !! i = Some v -> take_indices x (i :: indices) = v :: take_indices x indices.
Proof. intros H. unfold take_indices. simpl. now rewrite H. Qed.

Lemma indices_of_found (items : list (str * nat)) days :
  Forall (fun day => day ∈ map fst items) days ->
  exists indices,
    indices_of (map fst items) days = Ok indices
    /\ take_indices (map fst items) indices = days
    /\ Forall2 (fun day n => (day, n) ∈ items) days
               (take_indices (map snd items) indices).
Proof.
  induction 1 as [|day days Hd _ (indices & E & Hx & Hy)].
  - exists []. split; [reflexivity|]. split; [reflexivity | constructor].
  - destruct (list_index_elem _ _ Hd) as (i & Ei & Hi & _).
    exists (i :: indices). cbn [indices_of]. rewrite Ei, E. cbn [rbind].
    split; [reflexivity|].
    rewrite lookup_map in Hi.
    destruct (items !! i) as [[k n]|] eqn:Eitem; [|discriminate].
    simpl in Hi. injection Hi as ->.
    rewrite (take_indices_cons (map fst items) i indices day)
      by now rewrite lookup_map, Eitem.
    rewrite (take_indices_cons (map snd items) i indices n)
      by now rewrite lookup_map, Eitem.
    split; [now rewrite Hx|].
    constructor; [|exact Hy]. apply list_elem_of_lookup. eauto.
Qed.

Lemma indices_of_missing x days day :
  day ∈ days -> day ∉ x -> indices_of x days = Raise ValueError.
Proof.
  induction days as [|d days IH]; intros Hin Hn; [now apply not_elem_of_nil in Hin|].
  cbn [indices_of]. destruct (list_index x d) as [i|e] eqn:E.
  - cbn [rbind]. apply elem_of_cons in Hin. destruct Hin as [-> | Hin].
    + apply list_index_ok_elem in E. contradiction.
    + now rewrite IH.
  - destruct (decide (d ∈ x)) as [Hd | Hd].
    + destruct (list_index_elem _ _ Hd) as (i & Ei & _). congruence.
    + rewrite list_index_not_elem in E by assumption. injection E as <-. reflexivity.
Qed.

Lemma weekday_bars_all_days (d : gmap (list Z) nat) :
  Forall (fun day => is_Some (d !! day)) DAYNAMES ->
  weekday_bars d = Ok (DAYNAMES, map (count_at d) DAYNAMES).
Proof.
  unfold weekday_bars. cbv zeta. fold DAYNAMES. intros H.
  destruct (indices_of_found (sorted_items d) DAYNAMES) as (indices & -> & Hx & Hy).
  { eapply Forall_impl; [exact H|]. intros day. apply sorted_items_keys. }
  cbn [rbind]. rewrite Hx. do 2 f_equal.
  clear -Hy. induction Hy as [|day n days ns Hn _ IH]; [reflexivity|].
  apply sorted_items_elem in Hn. simpl. unfold count_at at 1. rewrite Hn. simpl.
  now rewrite IH.
Qed.

Lemma weekday_bars_missing_day (d : gmap (list Z) nat) day :
  day ∈ DAYNAMES -> d !! day = None -> weekday_bars d = Raise ValueError.
Proof.
  unfold weekday_bars. cbv zeta. fold DAYNAMES. intros Hin Hnone.
  rewrite (indices_of_missing _ _ day); [reflexivity | assumption |].
  rewrite sorted_items_keys, Hnone. now intros [].
Qed.

Lemma weekday_graph_all_days (d : gmap (list Z) nat) :
  Forall (fun day => is_Some (d !! day)) DAYNAMES ->
  weekday_graph d = Ok (Some (DAYNAMES, map (count_at d) DAYNAMES)) /\ d <> ∅.
Proof.
  intros H. assert (Hne : d <> ∅).
  { intros ->. apply Forall_cons in H. destruct H as [[n H] _].
    rewrite lookup_empty in H. discriminate. }
  split; [|assumption]. unfold weekday_graph.
  rewrite bool_decide_eq_false_2 by assumption. now rewrite weekday_bars_all_days.
Qed.

Lemma weekday_graph_missing_day (d : gmap (list Z) nat) day :
  d <> ∅ -> day ∈ DAYNAMES -> d !! day = None -> weekday_graph d = Raise ValueError.
Proof.
  intros Hne Hin Hnone. unfold weekday_graph.
  rewrite bool_decide_eq_false_2 by assumption.
  now rewrite (weekday_bars_missing_day d day).
Qed.

(** X8: no weekday graph is made of an empty histogram.  Of any other one
    the graph can be built only when each of the seven weekday abbreviations
    is a key: then its bars are the seven counts in the order Monday to
    Sunday, any other key being left out; when an abbreviation is missing,
    the lookup of its position raises [ValueError]. *)
Theorem weekday_graph_needs_all_days (d : gmap (list Z) nat) :
  (d = ∅ -> weekday_graph d = Ok None)
  /\ (Forall (fun day => is_Some (d !! day)) DAYNAMES ->
      weekday_graph d = Ok (Some (DAYNAMES, map (count_at d) DAYNAMES)))
  /\ (forall day, d <> ∅ -> day ∈ DAYNAMES -> d !! day = None ->
      weekday_graph d = Raise ValueError).
Proof.
  split; [|split].
  - intros ->. reflexivity.
  - intros H. now apply weekday_graph_all_days.
  - intros day. apply weekday_graph_missing_day.
Qed.

(** A week with two messages on each day, and the same without its Sunday. *)
Example weekday_graph_examples :
  weekday_graph (list_to_map (map (fun day => (day, 2%nat)) DAYNAMES))
  = Ok (Some (DAYNAMES, [2; 2; 2; 2; 2; 2; 2]%nat))
  /\ weekday_graph (list_to_map (map (fun day => (day, 2%nat)) (take 6 DAYNAMES)))
     = Raise ValueError.
Proof. split; vm_compute; reflexivity. Qed.

(** ** Emoji usage *)

Section EmojiCounts.

Variable isalnum : Z -> bool.

Local Abbreviation counted := (counted_in isalnum).

Lemma bump_emoji_count d e p :
  emoji_count_at (bump_emoji d e) p
  = (emoji_count_at d p + (if bool_decide (e = p) then 1 else 0))%nat.
Proof.
  unfold emoji_count_at, bump_emoji. destruct (d !! e) as [n|] eqn:E.
  - rewrite E. rewrite lookup_insert. destruct (decide (e = p)) as [<- | Hne].
    + rewrite bool_decide_eq_true_2 by reflexivity. rewrite E. simpl. lia.
    + rewrite bool_decide_eq_false_2 by assumption. lia.
  - rewrite lookup_insert_eq, insert_insert_eq, lookup_insert.
    destruct (decide (e = p)) as [<- | Hne].
    + rewrite bool_decide_eq_true_2 by reflexivity. rewrite E. simpl. lia.
    + rewrite bool_decide_eq_false_2 by assumption. lia.
Qed.

Lemma count_emojis_count emojis : forall d p,
  emoji_count_at (count_emojis d emojis) p
  = (emoji_count_at d p
     + length (List.filter (fun c => counts_as_emoji c && bool_decide (c = p)) emojis))%nat.
Proof.
  unfold count_emojis. induction emojis as [|e emojis IH]; intros d p; [simpl; lia|].
  cbn [foldl List.filter]. rewrite IH. destruct (counts_as_emoji e); cbn [andb].
  - rewrite bump_emoji_count. destruct (bool_decide (e = p)); simpl; lia.
  - lia.
Qed.

Lemma filter_filter_length (f g : Z -> bool) s :
  length (List.filter g (List.filter f s))
  = length (List.filter (fun c => f c && g c) s).
Proof.
  induction s as [|c s IH]; [reflexivity|].
  simpl. destruct (f c); simpl; [destruct (g c); simpl; now rewrite IH | exact IH].
Qed.

Lemma get_emoji_frequency_count ms : forall d p,
  emoji_count_at
    (foldl (fun d message =>
              count_emojis d (findall_candidates isalnum (content message))) d ms) p
  = (emoji_count_at d p + counted p (concat (map content ms)))%nat.
Proof.
  induction ms as [|m ms IH]; intros d p.
  - unfold counted_in. simpl. lia.
  - cbn [foldl map concat]. rewrite IH, count_emojis_count.
    unfold findall_candidates, counted_in. rewrite filter_filter_length.
    rewrite List.filter_app, length_app.
    assert (E : forall s,
               length (List.filter (fun c => emoji_candidate isalnum c
                                             && (counts_as_emoji c && bool_decide (c = p))) s)
               = length (List.filter (fun c => emoji_candidate isalnum c && counts_as_emoji c
                                               && bool_decide (c = p)) s)).
    { intros s. f_equal. apply List.filter_ext. intros c. now rewrite andb_assoc. }
    rewrite E. lia.
Qed.

Lemma counted_character_spec e :
  emoji_candidate isalnum e && counts_as_emoji e = counted_character isalnum e.
Proof.
  unfold emoji_candidate, counts_as_emoji, counted_character, ORD_EMOJI_CUTOFF.
  rewrite negb_orb. now rewrite !andb_assoc.
Qed.

(** X9: [get_emoji_frequency] adds to the count of a character the number of
    its occurrences in the contents of all messages when the character is
    neither alphanumeric, an underscore, whitespace nor a comma, lies above
    the cutoff 1000 and is not one of the nine excluded code points; it adds
    nothing to the count of any other character. *)
Theorem get_emoji_frequency_counts c e :
  emoji_count_at (emoji_frequency (get_emoji_frequency isalnum c)) e
  = (emoji_count_at (emoji_frequency c) e
     + (if counted_character isalnum e
        then count_occ Z.eq_dec (concat (map content (messages c))) e
        else 0))%nat.
Proof.
  unfold get_emoji_frequency. cbn [emoji_frequency].
  rewrite get_emoji_frequency_count. f_equal.
  unfold counted_in. generalize (concat (map content (messages c))).
  induction l as [|x l IH].
  - simpl. now destruct (counted_character isalnum e).
  - cbn [List.filter count_occ]. rewrite counted_character_spec.
    destruct (Z.eq_dec x e) as [-> | Hne].
    + rewrite bool_decide_eq_true_2 by reflexivity. rewrite andb_true_r.
      destruct (counted_character isalnum e); [simpl; now rewrite IH | exact IH].
    + rewrite bool_decide_eq_false_2 by assumption. rewrite andb_false_r. exact IH.
Qed.

End EmojiCounts.

(** ** Participants recovered from the metadata *)

Lemma nicknames_of_spec msgs : forall acc names,
  nicknames_of acc msgs = Ok names ->
  Forall (fun msg => is_ok (nickname_of msg) = true) msgs
  /\ forall p, p ∈ names <-> p ∈ acc \/ exists msg, msg ∈ msgs /\ nickname_of msg = Ok p.
Proof.
  induction msgs as [|msg msgs IH]; intros acc names H; cbn [nicknames_of] in H.
  - injection H as <-. split; [constructor|]. intros p. split; [auto|].
    intros [H | (msg & Hin & _)]; [assumption | now apply not_elem_of_nil in Hin].
  - do 4 bind_inv H.
    assert (N : nickname_of msg = Ok a2).
    { unfold nickname_of. rewrite E. cbn [rbind]. rewrite E0. cbn [rbind].
      rewrite E1. exact E2. }
    destruct (IH _ _ H) as [F K]. split.
    + constructor; [now rewrite N | assumption].
    + intros p. rewrite K. rewrite elem_of_union, elem_of_singleton. split.
      * intros [[-> | Hacc] | (m & Hin & Hm)].
        -- right. exists msg. split; [constructor | assumption].
        -- now left.
        -- right. exists m. split; [now constructor | assumption].
      * intros [Hacc | (m & Hin & Hm)]; [auto|].
        apply elem_of_cons in Hin. destruct Hin as [-> | Hin].
        -- left. left. congruence.
        -- right. eauto.
Qed.

(** X10: when the list of Discord participants is recovered, every message
    of the metadata file had a nickname that the UTF-16 round trip accepts,
    the list holds no name twice, and a name is in it exactly when it is the
    repaired nickname of the author of one of the messages. *)
Theorem metadata_participants_discord_spec messages ps :
  metadata_participants_discord messages = Ok ps ->
  exists ms msgs,
    py_getitem messages (lit "messages") = Ok ms /\ py_iter ms = Ok msgs
    /\ Forall (fun msg => is_ok (nickname_of msg) = true) msgs
    /\ NoDup ps
    /\ forall p, p ∈ ps <-> exists msg, msg ∈ msgs /\ nickname_of msg = Ok p.
Proof.
  unfold metadata_participants_discord. intros H. do 3 bind_inv H. injection H as <-.
  exists a, a0. split; [assumption|]. split; [assumption|].
  destruct (nicknames_of_spec _ _ _ E1) as [F K]. split; [assumption|].
  split; [apply NoDup_elements|].
  intros p. rewrite elem_of_elements, K. split; [|auto].
  intros [H | H]; [now apply not_elem_of_empty in H | assumption].
Qed.

Lemma metadata_participants_discord_spec_witness :
  exists ms msgs,
    py_getitem
      (discord_export [discord_message (lit "bob") (lit "2021-03-04T12:34:56") [];
                       discord_message (lit "bob") (lit "2021-03-04T12:35:10") []])
      (lit "messages") = Ok ms
    /\ py_iter ms = Ok msgs
    /\ Forall (fun msg => is_ok (nickname_of msg) = true) msgs
    /\ NoDup [lit "Bobby"]
    /\ forall p, p ∈ [lit "Bobby"] <-> exists msg, msg ∈ msgs /\ nickname_of msg = Ok p.
Proof.
  apply (metadata_participants_discord_spec
           (discord_export [discord_message (lit "bob") (lit "2021-03-04T12:34:56") [];
                            discord_message (lit "bob") (lit "2021-03-04T12:35:10") []])).
  vm_compute. reflexivity.
Defined.

(** ** The ticks of the day graph *)




Example calculate_ticks_example :
  calculate_ticks_month_year
    (map lit ["Dec"; "Dec"; "Jan"; "Jan"; "Feb"]%string)
    (map lit ["2020"; "2020"; "2021"; "2021"; "2021"]%string)
  = [(0%nat, lit "Dec 2020"); (2%nat, lit "Jan 2021"); (4%nat, lit "Feb 2021")].
Proof. vm_compute. reflexivity. Qed.

(** ** The order on strings and the sort *)

Lemma str_ltb_irrefl a : str_ltb a a = false.
Proof.
  induction a as [|x a IH]; [reflexivity|].
  simpl. now rewrite Z.ltb_irrefl, Z.eqb_refl, IH.
Qed.

Lemma str_ltb_trans a : forall b c,
  str_ltb a b = true -> str_ltb b c = true -> str_ltb a c = true.
Proof.
  induction a as [|x a IH]; intros [|y b] [|z c] H1 H2; try discriminate; [reflexivity|].
  simpl in *. apply orb_true_iff in H1, H2. apply orb_true_iff.
  destruct H1 as [H1 | H1]; destruct H2 as [H2 | H2].
  - left. apply Z.ltb_lt in H1, H2. apply Z.ltb_lt. lia.
  - apply andb_true_iff in H2. destruct H2 as [H2 _]. apply Z.eqb_eq in H2. subst z.
    now left.
  - apply andb_true_iff in H1. destruct H1 as [H1 _]. apply Z.eqb_eq in H1. subst y.
    now left.
  - apply andb_true_iff in H1, H2. destruct H1 as [E1 H1], H2 as [E2 H2].
    apply Z.eqb_eq in E1, E2. subst y z. right.
    rewrite Z.eqb_refl. simpl. eapply IH; eassumption.
Qed.

Lemma str_ltb_total a : forall b,
  str_ltb a b = false -> str_ltb b a = false -> a = b.
Proof.
  induction a as [|x a IH]; intros [|y b] H1 H2; try discriminate; [reflexivity|].
  simpl in *. apply orb_false_iff in H1, H2.
  destruct H1 as [L1 H1], H2 as [L2 H2]. apply Z.ltb_ge in L1, L2.
  assert (x = y) by lia. subst y. rewrite Z.eqb_refl in H1, H2. simpl in H1, H2.
  f_equal. now apply IH.
Qed.

Lemma key_le_trans {A} (key : A -> str) a b c :
  key_le key a b -> key_le key b c -> key_le key a c.
Proof.
  unfold key_le. intros H1 H2.
  destruct (str_ltb (key c) (key a)) eqn:E; [|reflexivity].
  destruct (str_ltb (key a) (key b)) eqn:E1.
  - rewrite (str_ltb_trans _ _ _ E E1) in H2. discriminate.
  - rewrite (str_ltb_total _ _ E1 H1) in E. congruence.
Qed.

Lemma insert_by_sorted {A} (key : A -> str) x l :
  StronglySorted (key_le key) l -> StronglySorted (key_le key) (insert_by key x l).
Proof.
  induction 1 as [|y l Hs IH Hy]; [repeat constructor|].
  simpl. destruct (str_ltb (key y) (key x)) eqn:E.
  - constructor; [assumption|].
    rewrite Forall_forall. intros z Hz.
    rewrite insert_by_perm in Hz. apply elem_of_cons in Hz. destruct Hz as [-> | Hz].
    + unfold key_le. destruct (str_ltb (key x) (key y)) eqn:E'; [|reflexivity].
      pose proof (str_ltb_trans _ _ _ E E') as T.
      rewrite str_ltb_irrefl in T. discriminate.
    + rewrite Forall_forall in Hy. now apply Hy.
  - constructor; [now constructor|].
    constructor; [exact E|].
    eapply Forall_impl; [exact Hy|]. intros z Hz.
    eapply key_le_trans; [exact E | exact Hz].
Qed.

Lemma sort_by_sorted {A} (key : A -> str) (l : list A) :
  StronglySorted (key_le key) (sort_by key l).
Proof.
  induction l as [|x l IH]; [constructor|]. simpl. now apply insert_by_sorted.
Qed.

(** In the sorted list an entry with a smaller key comes first. *)
Lemma sort_by_before {A} (key : A -> str) (l : list A) x y :
  x ∈ l -> y ∈ l -> str_ltb (key x) (key y) = true ->
  exists l1 l2 l3, sort_by key l = l1 ++ x :: l2 ++ y :: l3.
Proof.
  intros Hx Hy Hlt.
  pose proof (sort_by_sorted key l) as S.
  rewrite <- (sort_by_perm key l) in Hx, Hy.
  destruct (list_elem_of_split _ _ Hx) as (p & q & E). rewrite E in *.
  apply elem_of_app in Hy. destruct Hy as [Hy | Hy].
  - pose proof (StronglySorted_app_1_elem_of _ _ _ y x S Hy ltac:(constructor)) as R.
    unfold key_le in R. congruence.
  - apply elem_of_cons in Hy. destruct Hy as [-> | Hy].
    + rewrite str_ltb_irrefl in Hlt. discriminate.
    + destruct (list_elem_of_split _ _ Hy) as (q1 & q2 & ->). now exists p, q1, q2.
Qed.

(** ** The keys of numbered files under a short path *)

Lemma str_ltb_app_common p a b : str_ltb (p ++ a) (p ++ b) = str_ltb a b.
Proof.
  induction p as [|x p IH]; [reflexivity|].
  simpl. now rewrite Z.ltb_irrefl, Z.eqb_refl, IH.
Qed.

Lemma lower_app a b : lower (a ++ b) = lower a ++ lower b.
Proof. apply map_app. Qed.

Lemma lower_replicate n : lower (replicate n 48) = replicate n 48.
Proof. induction n as [|n IH]; [reflexivity|]. simpl. now rewrite IH. Qed.

Lemma file_number_facts n :
  1 <= n <= 99 ->
  lower (file_number n) = file_number n
  /\ length (file_number n) = (if (n <? 10)%Z then 1 else 2)%nat.
Proof.
  intros H. unfold file_number. destruct (Z.ltb_spec n 10); (split; [|reflexivity]).
  - unfold lower, lower_char. cbn [map]. settle_tests. reflexivity.
  - unfold lower, lower_char. cbn [map]. settle_tests. reflexivity.
Qed.

Lemma sort_key_message path n :
  1 <= n <= 99 ->
  sort_key (path ++ lit "/" ++ message_name n)
  = replicate (20 - (length path + 14 + (if (n <? 10)%Z then 1%nat else 2%nat))) 48
    ++ lower path ++ lit "/message_" ++ file_number n ++ lit ".json".
Proof.
  intros H. destruct (file_number_facts n H) as [Hl Hn].
  unfold sort_key, pad_left_zeros, message_name.
  rewrite !lower_app, lower_replicate, Hl. f_equal; try reflexivity.
  f_equal. rewrite !length_app, Hn. simpl. lia.
Qed.

Lemma sort_key_message_lt path i j :
  (1 <= length path <= 4)%nat -> 48 < lower_char (hd 0 path) ->
  1 <= i -> i < j -> j <= 99 ->
  str_ltb (sort_key (path ++ lit "/" ++ message_name i))
          (sort_key (path ++ lit "/" ++ message_name j)) = true.
Proof.
  intros Hlen Hc Hi Hij Hj. rewrite !sort_key_message by lia.
  destruct (Z.ltb_spec i 10) as [Hi10 | Hi10];
    destruct (Z.ltb_spec j 10) as [Hj10 | Hj10]; try lia.
  - rewrite str_ltb_app_common, str_ltb_app_common.
    change (lit "/message_" ++ ?x) with (lit "/message_" ++ x).
    rewrite str_ltb_app_common. unfold file_number.
    destruct (Z.ltb_spec i 10); [|lia]. destruct (Z.ltb_spec j 10); [|lia].
    cbn [app str_ltb]. settle_tests. reflexivity.
  - replace (20 - (length path + 14 + 1))%nat with (S (20 - (length path + 14 + 2)))
      by lia.
    assert (R : forall k, replicate (S k) 48 = replicate k 48 ++ [48]).
    { induction k as [|k IH]; simpl in *; [reflexivity | f_equal; exact IH]. }
    rewrite R, <- app_assoc, str_ltb_app_common.
    destruct path as [|c path]; [simpl in Hlen; lia|].
    simpl in Hc. cbn [lower map app str_ltb].
    apply Z.ltb_lt in Hc. now rewrite Hc.
  - rewrite str_ltb_app_common, str_ltb_app_common.
    rewrite (str_ltb_app_common (lit "/message_")). unfold file_number.
    destruct (Z.ltb_spec i 10); [lia|]. destruct (Z.ltb_spec j 10); [lia|].
    cbn [app str_ltb]. settle_tests; reflexivity.
Qed.

Lemma ends_with_app s p : ends_with s (p ++ s) = true.
Proof.
  induction p as [|c p IH].
  - destruct s; cbn [app ends_with]; now rewrite bool_decide_eq_true_2.
  - cbn [app ends_with]. rewrite IH. apply orb_true_r.
Qed.

Lemma glob_json_message {A} path (dir : list (str * A)) n c :
  (message_name n, c) ∈ dir ->
  (path ++ lit "/" ++ message_name n, c) ∈ glob_json path dir.
Proof.
  intros H. unfold glob_json.
  change (map ?f ?l) with (f <$> l).
  apply list_elem_of_fmap. exists (message_name n, c). split; [reflexivity|].
  apply list_elem_of_filter. split; [|assumption]. cbn [fst]. split.
  - unfold message_name. rewrite app_assoc. apply ends_with_app.
  - reflexivity.
Qed.

(** X13: under a path of one to four characters that [glob] takes as it is
    written (no pattern character, no slash at the end) and whose first
    character sorts above the digit 0 (as in [kiki]), the files
    [message_1.json] to [message_99.json] are opened in the order of their
    numbers, however the system lists the directory and whatever other files
    it holds. *)
Theorem short_path_opens_in_numeric_order path (dir : list (str * json)) i j ci cj :
  literal_path path = true ->
  (1 <= length path <= 4)%nat -> 48 < lower_char (hd 0 path) ->
  1 <= i -> i < j -> j <= 99 ->
  (message_name i, ci) ∈ dir -> (message_name j, cj) ∈ dir ->
  exists l1 l2 l3,
    file_list path dir
    = l1 ++ (path ++ lit "/" ++ message_name i, ci)
         :: l2 ++ (path ++ lit "/" ++ message_name j, cj) :: l3.
Proof.
  intros _ Hlen Hc Hi Hij Hj Di Dj. unfold file_list.
  apply sort_by_before.
  - now apply glob_json_message.
  - now apply glob_json_message.
  - cbn [fst]. now apply sort_key_message_lt.
Qed.

Lemma short_path_opens_in_numeric_order_witness :
  exists l1 l2 l3,
    file_list (lit "kiki") (rev twelve_files)
    = l1 ++ (lit "kiki" ++ lit "/" ++ message_name 2,
             fb_export [fb_message [(lit "content", JStr (lit "2"))]])
         :: l2 ++ (lit "kiki" ++ lit "/" ++ message_name 10,
                   fb_export [fb_message [(lit "content", JStr (lit "10"))]]) :: l3.
Proof.
  apply short_path_opens_in_numeric_order;
    [reflexivity | simpl; lia | reflexivity | lia | lia | lia | |].
  - apply list_elem_of_In. vm_compute. tauto.
  - apply list_elem_of_In. vm_compute. tauto.
Defined.

(** ** From ingestion to the graphs *)

Lemma ingested_histograms_empty utcoffset dir pth fb dc conv :
  load_messages utcoffset dir (Conversation_init pth fb dc) = Ok conv ->
  weekday_frequency conv = ∅ /\ hour_frequency conv = ∅ /\ day_frequency conv = ∅
  /\ Forall (fun m => ctime_layout (time m)) (messages conv).
Proof.
  intros H. apply load_messages_inv in H. destruct H as [Hp Hc].
  rewrite Hc at 1 2 3. rewrite foldl_add_message_eq. cbn.
  repeat split. eapply Forall_impl; [exact Hp|]. intros m. apply produced_layout.
Qed.

Lemma occurrences_pos key_of k ms :
  (0 < occurrences key_of k ms)%nat <-> exists m, m ∈ ms /\ key_of (time m) = Ok k.
Proof.
  unfold occurrences. induction ms as [|m ms IH]; simpl.
  - split; [lia|]. intros (m & H & _). now apply not_elem_of_nil in H.
  - unfold has_key at 1. destruct (key_of (time m)) as [k'|e] eqn:E.
    + unfold str_eqb. destruct (decide (k' = k)) as [-> | Hne].
      * rewrite bool_decide_eq_true_2 by reflexivity. simpl.
        split; [|lia]. intros _. exists m. split; [constructor | assumption].
      * rewrite bool_decide_eq_false_2 by assumption. rewrite IH.
        split; intros (m' & Hin & Hm').
        -- exists m'. split; [now constructor | assumption].
        -- apply elem_of_cons in Hin. destruct Hin as [-> | Hin]; [congruence | eauto].
    + rewrite IH. split; intros (m' & Hin & Hm').
      * exists m'. split; [now constructor | assumption].
      * apply elem_of_cons in Hin. destruct Hin as [-> | Hin]; [congruence | eauto].
Qed.

(** X15: after ingestion and [get_weekday_frequency], every key of the
    weekday histogram is one of the seven abbreviations.  With no message
    there is no weekday graph; with messages, the graph is built exactly
    when each day of the week has at least one of them, and the lookup of
    the first day that has none raises [ValueError] otherwise. *)
Theorem weekday_graph_of_ingested utcoffset dir pth fb dc conv :
  load_messages utcoffset dir (Conversation_init pth fb dc) = Ok conv ->
  exists conv',
    get_weekday_frequency conv = Ok conv'
    /\ (forall k, is_Some (weekday_frequency conv' !! k) -> k ∈ DAYNAMES)
    /\ (messages conv = [] -> weekday_graph (weekday_frequency conv') = Ok None)
    /\ (Forall (fun day => (0 < occurrences weekday_key day (messages conv))%nat)
               DAYNAMES ->
        weekday_graph (weekday_frequency conv')
        = Ok (Some (DAYNAMES,
                    map (fun day => occurrences weekday_key day (messages conv))
                        DAYNAMES)))
    /\ (forall day, messages conv <> [] -> day ∈ DAYNAMES ->
        occurrences weekday_key day (messages conv) = 0%nat ->
        weekday_graph (weekday_frequency conv') = Raise ValueError).
Proof.
  intros H. destruct (ingested_histograms_empty _ _ _ _ _ _ H) as (E0 & _ & _ & L).
  destruct (count_keys_total weekday_key (messages conv) ∅) as [d' Hd'].
  { apply Forall_forall. intros m _. apply weekday_key_total. }
  unfold get_weekday_frequency. rewrite E0, Hd'. eexists. split; [reflexivity|].
  cbn [weekday_frequency].
  destruct (count_keys_counts _ _ _ _ Hd') as [K T].
  assert (K' : forall k, count_at d' k = occurrences weekday_key k (messages conv)).
  { intros k. rewrite K. unfold count_at. now rewrite lookup_empty. }
  assert (S : forall k, is_Some (d' !! k) <->
                        (0 < occurrences weekday_key k (messages conv))%nat).
  { intros k. split.
    - intros Hk. destruct (count_keys_keys _ _ _ _ Hd' k Hk) as [Hs | Hm].
      + rewrite lookup_empty in Hs. now destruct Hs.
      + now apply occurrences_pos.
    - intros Hk. rewrite <- K' in Hk. unfold count_at in Hk.
      destruct (d' !! k); [eauto | simpl in Hk; lia]. }
  split; [|split; [|split]].
  - intros k Hk. apply S, occurrences_pos in Hk. destruct Hk as (m & Hin & Hm).
    rewrite Forall_forall in L.
    destruct (L m Hin) as (wd & mon & d & h & mi & s & y & R & _ & Kw & _).
    rewrite Kw in Hm. injection Hm as <-.
    apply (proj2 (list_elem_of_In _ _)).
    refine (nth_In DAYNAMES [] (n := Z.to_nat wd) _).
    change (length DAYNAMES) with 7%nat. lia.
  - intros Hnil. rewrite Hnil in Hd'. injection Hd' as <-. reflexivity.
  - intros F.
    destruct (weekday_graph_all_days d') as [G _].
    { eapply Forall_impl; [exact F|]. intros day. apply S. }
    rewrite G. do 3 f_equal. apply map_ext. exact K'.
  - intros day Hne Hin Hz.
    apply (weekday_graph_missing_day d' day); [|assumption|].
    + intros ->. unfold total_count in T. rewrite map_fold_empty in T.
      destruct (messages conv); [congruence | simpl in T; lia].
    + destruct (d' !! day) eqn:E; [|reflexivity].
      assert (Hs : is_Some (d' !! day)) by eauto. apply S in Hs. lia.
Qed.

Lemma weekday_graph_of_ingested_witness :
  exists conv',
    get_weekday_frequency mixed_conversation = Ok conv'
    /\ (forall k, is_Some (weekday_frequency conv' !! k) -> k ∈ DAYNAMES)
    /\ (messages mixed_conversation = [] ->
        weekday_graph (weekday_frequency conv') = Ok None)
    /\ (Forall (fun day =>
                  (0 < occurrences weekday_key day (messages mixed_conversation))%nat)
               DAYNAMES ->
        weekday_graph (weekday_frequency conv')
        = Ok (Some (DAYNAMES,
                    map (fun day =>
                           occurrences weekday_key day (messages mixed_conversation))
                        DAYNAMES)))
    /\ (forall day, messages mixed_conversation <> [] -> day ∈ DAYNAMES ->
        occurrences weekday_key day (messages mixed_conversation) = 0%nat ->
        weekday_graph (weekday_frequency conv') = Raise ValueError).
Proof.
  apply (weekday_graph_of_ingested utc_host mixed_dir (lit "kiki") [lit "A"] [lit "Bobby"]).
  vm_compute. reflexivity.
Defined.

(** Two messages, on a Thursday and a Saturday: the first graph fails. *)
Example weekday_graph_of_two_messages :
  exists conv',
    get_weekday_frequency mixed_conversation = Ok conv'
    /\ weekday_graph (weekday_frequency conv') = Raise ValueError.
Proof. eexists. split; vm_compute; reflexivity. Qed.

Lemma valid_labels_dated (items : list (str * nat)) :
  Forall (fun x => exists y m d, valid_date y m d /\ fst x = day_label y m d) items ->
  exists dated, Forall item_valid dated /\ items = map dated_item dated.
Proof.
  induction 1 as [|[k n] items (y & m & d & Hv & Hk) _ (dated & Hd & ->)].
  - now exists [].
  - exists ((y, m, d, n) :: dated). split; [now constructor|].
    simpl in *. now rewrite Hk.
Qed.

(** X16: after ingestion and [get_day_frequency], sorting the items of the
    day histogram by [sortkey_date] succeeds in whatever order the
    dictionary holds them, and returns them in the order of the calendar. *)
Theorem day_items_of_ingested_sort utcoffset dir pth fb dc conv :
  load_messages utcoffset dir (Conversation_init pth fb dc) = Ok conv ->
  exists conv',
    get_day_frequency conv = Ok conv'
    /\ forall items,
         items ≡ₚ map_to_list (day_frequency conv') ->
         exists dated,
           Forall item_valid dated
           /\ map dated_item dated ≡ₚ items
           /\ sorted_by_date items = Ok (map dated_item dated)
           /\ Sorted Z.le (map item_rank dated).
Proof.
  intros H. destruct (day_histogram_ingested _ _ _ _ _ _ H) as (conv' & -> & _ & _ & V).
  exists conv'. split; [reflexivity|]. intros items Hp.
  destruct (valid_labels_dated items) as (dated & Hd & ->).
  { apply Forall_forall. intros [k n] Hin. rewrite Hp in Hin.
    apply elem_of_map_to_list in Hin. apply V. simpl. eauto. }
  destruct (sorted_by_date_dated dated Hd) as (dated' & P & S & R).
  exists dated'. split; [|split; [|split]]; try assumption.
  - now rewrite P.
  - now rewrite P.
Qed.

Lemma day_items_of_ingested_sort_witness :
  exists conv',
    get_day_frequency mixed_conversation = Ok conv'
    /\ forall items,
         items ≡ₚ map_to_list (day_frequency conv') ->
         exists dated,
           Forall item_valid dated
           /\ map dated_item dated ≡ₚ items
           /\ sorted_by_date items = Ok (map dated_item dated)
           /\ Sorted Z.le (map item_rank dated).
Proof.
  apply (day_items_of_ingested_sort utc_host mixed_dir (lit "kiki") [lit "A"] [lit "Bobby"]).
  vm_compute. reflexivity.
Defined.

(** ** Skipped entries *)

(** X17: message objects that have no payload field and a false [is_unsent]
    are skipped one after the other without any error: a list of such
    objects leaves the conversation as it was, whether or not the platform
    is known. *)
Theorem empty_entries_leave_conversation utcoffset used_app conv msgs :
  Forall is_empty_entry msgs ->
  load_file_messages utcoffset used_app conv msgs = Ok conv.
Proof.
  induction 1 as [|message msgs (d & u & -> & F & Hu & Ht) _ IH]; [reflexivity|].
  cbn [load_file_messages].
  rewrite (load_message_flag_false utcoffset used_app conv d u F Hu Ht).
  exact IH.
Qed.

Lemma empty_entries_leave_conversation_witness :
  load_file_messages utc_host None (Conversation_init (lit "kiki") [lit "A"] [])
    [fb_message [(lit "is_unsent", JBool false)]; JDict [(lit "is_unsent", JInt 0)]]
  = Ok (Conversation_init (lit "kiki") [lit "A"] []).
Proof.
  apply empty_entries_leave_conversation.
  repeat constructor.
  - exists [(lit "sender_name", JStr (lit "A"));
            (lit "timestamp_ms", JInt 1614861296000); (lit "is_unsent", JBool false)],
           (JBool false).
    split; [reflexivity|]. split; [repeat constructor|]. split; reflexivity.
  - exists [(lit "is_unsent", JInt 0)], (JInt 0).
    split; [reflexivity|]. split; [repeat constructor|]. split; reflexivity.
Defined.

(** ** Stored content *)

Lemma dict_get_key_cases (d : list (str * str)) w :
  (exists e, In (w, e) d /\ dict_get d w w = e)
  \/ (existsb (fun kv => str_eqb (fst kv) w) d = false /\ dict_get d w w = w).
Proof.
  induction d as [|[k e] d IH]; [now right|].
  cbn [existsb dict_get fst]. destruct (str_eqb k w) eqn:K.
  - left. exists e. unfold str_eqb in K. apply bool_decide_eq_true in K. subst k.
    split; [now left | reflexivity].
  - destruct IH as [(e' & Hin & He) | [Hn He]].
    + left. exists e'. split; [now right | assumption].
    + right. split; assumption.
Qed.

Lemma rewrite_token_no_emoticon w : is_emoticon (rewrite_token w) = false.
Proof.
  assert (V : Forall (fun kv => is_emoticon (snd kv) = false) convertable_emojis)
    by (repeat constructor).
  unfold rewrite_token.
  destruct (dict_get_key_cases convertable_emojis w) as [(e & Hin & ->) | [Hn ->]].
  - rewrite Forall_forall in V. apply list_elem_of_In in Hin. exact (V _ Hin).
  - exact Hn.
Qed.

Lemma classify_text_content used_app message c :
  classify used_app message = Ok (Some (text, c)) ->
  exists s, c = convert_symbols_to_emojis s.
Proof.
  intros H. unfold classify in H. cbv zeta in H.
  step_check H.
  { do 4 bind_inv H. injection H as <-. eauto. }
  do 6 (step_check H; [discriminate|]).
  bind_inv H. destruct (truthy a); discriminate.
Qed.

(** X18: the content of every message that ingestion stores is in the form
    the emoticon rewrite leaves it in: its words are separated by single
    spaces with none around them, and none of its words is an emoticon of
    the table any more. *)
Theorem ingested_content_is_rewritten utcoffset dir pth fb dc conv :
  load_messages utcoffset dir (Conversation_init pth fb dc) = Ok conv ->
  Forall (fun m =>
            join (lit " ") (split_ws (content m)) = content m
            /\ Forall (fun token => is_emoticon token = false) (split_ws (content m)))
         (messages conv).
Proof.
  intros H. apply load_messages_inv in H. destruct H as [Hp _].
  eapply Forall_impl; [exact Hp|]. intros m (message & Hc & _).
  destruct (classify_content _ _ _ _ Hc) as [Hk | Hnil].
  - rewrite Hk in Hc. apply classify_text_content in Hc. destruct Hc as [s ->].
    assert (E : split_ws (convert_symbols_to_emojis s)
                = map rewrite_token (split_ws s)).
    { unfold convert_symbols_to_emojis. apply split_ws_join.
      pose proof (split_ws_words s) as W. revert W.
      generalize (split_ws s). induction l as [|w l IH]; [easy|].
      simpl. intros W. apply andb_true_iff in W. destruct W as [Hw Hl].
      change (is_word (rewrite_token w) && forallb is_word (map rewrite_token l) = true).
      now rewrite rewrite_token_word, IH. }
    rewrite E. split; [reflexivity|].
    apply Forall_forall. intros token Hin.
    apply list_elem_of_In, in_map_iff in Hin. destruct Hin as (w & <- & _).
    apply rewrite_token_no_emoticon.
  - rewrite Hnil. split; [reflexivity | constructor].
Qed.

Lemma ingested_content_is_rewritten_witness :
  Forall (fun m =>
            join (lit " ") (split_ws (content m)) = content m
            /\ Forall (fun token => is_emoticon token = false) (split_ws (content m)))
         (messages mixed_conversation).
Proof.
  apply (ingested_content_is_rewritten utc_host mixed_dir (lit "kiki")
           [lit "A"] [lit "Bobby"]).
  vm_compute. reflexivity.
Defined.

(** ** A Facebook text message, end to end *)

(** X19: a Facebook message object whose content and sender name are the
    UTF-8 bytes of a text and of a name, each byte read as one character, and
    whose time stamp the host can show, is appended as a text message with
    the emoticon-rewritten text as content, the name as author and the
    rendered time. *)
Theorem facebook_text_message_ingested utcoffset conv d t name ms dt :
  py_contains (lit "content") (JDict d) = Ok true ->
  dict_lookup d (lit "content") = Some (JStr (encode_utf8 t)) ->
  dict_lookup d (lit "sender_name") = Some (JStr (encode_utf8 name)) ->
  dict_lookup d (lit "timestamp_ms") = Some (JInt ms) ->
  forallb is_scalar t = true -> forallb is_scalar name = true ->
  fromtimestamp utcoffset (ms / 1000) = Ok dt ->
  load_message utcoffset (Some facebook) conv (JDict d)
  = Ok (add_message conv
          (mk_Message (ctime dt) text (convert_symbols_to_emojis t) (JStr name) facebook)).
Proof.
  intros Hc Ht Hn Hms St Sn Hdt.
  assert (Rt : repair_latin1 (encode_utf8 t) = Ok t).
  { unfold repair_latin1. rewrite encode_latin1_bytes.
    - simpl. now apply decode_utf8_encode.
    - clear -St. induction t as [|c s IH]; [constructor|].
      simpl in St. apply andb_true_iff in St. destruct St as [Hc Hs].
      simpl. apply Forall_app. split; [now apply encode_utf8_char_bytes | auto]. }
  assert (Rn : repair_latin1 (encode_utf8 name) = Ok name).
  { unfold repair_latin1. rewrite encode_latin1_bytes.
    - simpl. now apply decode_utf8_encode.
    - clear -Sn. induction name as [|c s IH]; [constructor|].
      simpl in Sn. apply andb_true_iff in Sn. destruct Sn as [Hc Hs].
      simpl. apply Forall_app. split; [now apply encode_utf8_char_bytes | auto]. }
  unfold load_message, classify. cbv zeta. rewrite Hc.
  cbn [rbind read_used_app py_getitem]. rewrite Ht. cbn [rbind as_str].
  rewrite Rt. cbn [rbind].
  unfold date_and_author. cbn [rbind read_used_app py_getitem].
  rewrite Hms. cbn [rbind as_number]. rewrite Hdt. cbn [rbind].
  rewrite Hn. cbn [rbind as_str]. rewrite Rn. reflexivity.
Qed.

(** The text [é :)] sent by [Zoë]. *)
Lemma facebook_text_message_ingested_witness :
  load_message utc_host (Some facebook) (Conversation_init (lit "kiki") [] [])
    (JDict [ (lit "sender_name", JStr (encode_utf8 [90; 111; 235]));
             (lit "timestamp_ms", JInt 0);
             (lit "content", JStr (encode_utf8 ([233] ++ lit " :)"))) ])
  = Ok (add_message (Conversation_init (lit "kiki") [] [])
          (mk_Message (ctime (mk_datetime 1970 1 1 0 0 0 None)) text
             (convert_symbols_to_emojis ([233] ++ lit " :)")) (JStr [90; 111; 235])
             facebook)).
Proof.
  apply (facebook_text_message_ingested utc_host _ _ ([233] ++ lit " :)") [90; 111; 235] 0);
    reflexivity.
Defined.

(** ** Witnesses of the histogram and of the append-only property *)

Lemma day_histogram_of_ingested_witness :
  exists conv',
    get_day_frequency mixed_conversation = Ok conv'
    /\ (forall k, count_at (day_frequency conv') k
                  = occurrences day_key k (messages mixed_conversation))
    /\ total_count (day_frequency conv') = length (messages mixed_conversation)
    /\ (forall k, is_Some (day_frequency conv' !! k) ->
          exists y m d, valid_date y m d /\ k = day_label y m d).
Proof.
  apply (day_histogram_of_ingested utc_host mixed_dir (lit "kiki") [lit "A"] [lit "Bobby"]).
  vm_compute. reflexivity.
Defined.

Lemma load_messages_only_appends_witness :
  exists new,
    Forall (produced utc_host) new
    /\ mixed_conversation
       = mk_Conversation (participants_fb (Conversation_init (lit "kiki") [lit "A"] [lit "Bobby"]))
           (participants_discord (Conversation_init (lit "kiki") [lit "A"] [lit "Bobby"]))
           (path (Conversation_init (lit "kiki") [lit "A"] [lit "Bobby"]))
           (messages (Conversation_init (lit "kiki") [lit "A"] [lit "Bobby"]) ++ new)
           (weekday_frequency (Conversation_init (lit "kiki") [lit "A"] [lit "Bobby"]))
           (hour_frequency (Conversation_init (lit "kiki") [lit "A"] [lit "Bobby"]))
           (day_frequency (Conversation_init (lit "kiki") [lit "A"] [lit "Bobby"]))
           (emoji_frequency (Conversation_init (lit "kiki") [lit "A"] [lit "Bobby"]))
           (participants_message_count (Conversation_init (lit "kiki") [lit "A"] [lit "Bobby"]))
           (participants_message_length (Conversation_init (lit "kiki") [lit "A"] [lit "Bobby"])).
Proof.
  apply (load_messages_only_appends utc_host mixed_dir).
  vm_compute. reflexivity.
Defined.
